(** * The web crawler of apm-discovery-agent (scripts/create_knowledge_base.py)

    A shallow embedding of the crawler: URL filtering, sitemap discovery,
    page fetching, translation and the breadth-first crawl loop, together
    with the two callers that choose the frontier
    ([load_documents_from_sources] and [load_api_reference_documents]).

    Python exceptions are modelled by a small state-and-exception monad.
    The state is the module-global translation client plus the trace of
    the [requests.get] calls issued, so that properties about what is
    fetched can be stated.  The [while queue:] loop runs on fuel; running out of fuel is a
    third outcome, distinct from returning and raising. *)

From Stdlib Require Import String Ascii List Bool ZArith Arith Lia Permutation.
Import ListNotations.
Open Scope string_scope.
Open Scope list_scope.

(* ------------------------------------------------------------------ *)
(** ** Python string helpers *)

(** [prefixb p s]: [s.startswith(p)]. *)
Fixpoint prefixb (p s : string) : bool :=
  match p, s with
  | EmptyString, _ => true
  | String a p', String b s' => Ascii.eqb a b && prefixb p' s'
  | _, _ => false
  end.

(** [contains needle hay]: Python's [needle in hay] on [str]. *)
Fixpoint contains (needle hay : string) : bool :=
  prefixb needle hay ||
  match hay with
  | EmptyString => false
  | String _ h => contains needle h
  end.

(** Membership in a Python [set] of strings (the visited set). *)
Definition mem (u : string) (s : list string) : bool :=
  existsb (String.eqb u) s.

(** Python truthiness of an [Optional[str]]. *)
Definition truthy (o : option string) : bool :=
  match o with
  | Some s => negb (String.eqb s "")
  | None => false
  end.

(* ------------------------------------------------------------------ *)
(** ** Global configuration *)

Definition IGNORE_PATTERNS : list string :=
  ["/login"; "/signup"; "/edit"; "cdn-cgi"; "?"; "#";
   ".pdf"; ".zip"; ".jpg"; ".png"].

(** [any(pattern in url for pattern in IGNORE_PATTERNS)] *)
Definition ignored (url : string) : bool :=
  existsb (fun pattern => contains pattern url) IGNORE_PATTERNS.

(* ------------------------------------------------------------------ *)
(** ** [urllib.parse.urlparse(url).netloc]

    Follows CPython's [urlsplit]: leading C0 controls and spaces are
    stripped, tab, CR and LF are removed, a scheme is split off when the
    text before the first [':'] starts with a letter and consists of scheme
    characters, and the netloc is what follows a leading ["//"] up to the
    first of ['/'], ['?'], ['#'].  A netloc with an unbalanced ['['] or
    [']'] raises [ValueError("Invalid IPv6 URL")]; when it has both, the
    text between the first ['['] and the next [']'] goes through
    [_check_bracketed_host] (CPython 3.11.4 and later), which raises
    [ValueError] unless it is an IPvFuture literal [v<hex>.<text>] or an
    IPv6 address as [ipaddress] parses it (IPv4 in brackets is refused).
    Every [ValueError] is modelled by [None]. *)

Definition is_alpha (c : ascii) : bool :=
  let n := nat_of_ascii c in
  (((65 <=? n) && (n <=? 90)) || ((97 <=? n) && (n <=? 122)))%nat.

Definition is_digit (c : ascii) : bool :=
  let n := nat_of_ascii c in ((48 <=? n) && (n <=? 57))%nat.

Definition is_scheme_char (c : ascii) : bool :=
  is_alpha c || is_digit c
  || Ascii.eqb c "+"%char || Ascii.eqb c "-"%char || Ascii.eqb c "."%char.

(** The text after the first [':'], provided every character before it is
    a scheme character. *)
Fixpoint after_scheme (s : string) : option string :=
  match s with
  | EmptyString => None
  | String c r =>
      if Ascii.eqb c ":"%char then Some r
      else if is_scheme_char c then after_scheme r
      else None
  end.

Definition split_scheme (url : string) : string :=
  match url with
  | EmptyString => url
  | String c _ =>
      if is_alpha c then
        match after_scheme url with Some r => r | None => url end
      else url
  end.

Fixpoint lstrip_c0 (s : string) : string :=
  match s with
  | EmptyString => s
  | String c r => if (nat_of_ascii c <=? 32)%nat then lstrip_c0 r else s
  end.

Definition is_unsafe_byte (c : ascii) : bool :=
  let n := nat_of_ascii c in ((n =? 9) || (n =? 10) || (n =? 13))%nat.

Fixpoint remove_unsafe (s : string) : string :=
  match s with
  | EmptyString => s
  | String c r =>
      if is_unsafe_byte c then remove_unsafe r else String c (remove_unsafe r)
  end.

(** [_splitnetloc(url, 2)], first component. *)
Fixpoint take_netloc (s : string) : string :=
  match s with
  | EmptyString => s
  | String c r =>
      if Ascii.eqb c "/"%char || Ascii.eqb c "?"%char || Ascii.eqb c "#"%char
      then EmptyString
      else String c (take_netloc r)
  end.

Definition has_char (c : ascii) (s : string) : bool :=
  contains (String c EmptyString) s.

(** [s.partition(sep)]: the text before the first [sep], whether [sep]
    occurs, and the text after it. *)
Fixpoint partition (sep : ascii) (s : string) : string * bool * string :=
  match s with
  | EmptyString => ("", false, "")
  | String c r =>
      if Ascii.eqb c sep then ("", true, r)
      else let '(b, f, a) := partition sep r in (String c b, f, a)
  end.

(** [s.split(sep)]. *)
Fixpoint py_split (sep : ascii) (s : string) : list string :=
  match s with
  | EmptyString => [""]
  | String c r =>
      if Ascii.eqb c sep then "" :: py_split sep r
      else match py_split sep r with
           | x :: xs => String c x :: xs
           | [] => [String c ""]
           end
  end.

Fixpoint str_forallb (p : ascii -> bool) (s : string) : bool :=
  match s with
  | EmptyString => true
  | String c r => p c && str_forallb p r
  end.

Definition is_hex_digit (c : ascii) : bool :=
  let n := nat_of_ascii c in
  (is_digit c || ((65 <=? n) && (n <=? 70)) || ((97 <=? n) && (n <=? 102)))%nat.

(** [int(s, 10)] for a string of decimal digits. *)
Fixpoint dec_value (acc : nat) (s : string) : nat :=
  match s with
  | EmptyString => acc
  | String c r => dec_value (acc * 10 + (nat_of_ascii c - 48)) r
  end.

(** [ipaddress.IPv4Address._parse_octet] does not raise. *)
Definition octet_ok (o : string) : bool :=
  if String.eqb o "" then false
  else if negb (str_forallb is_digit o) then false
  else if (3 <? String.length o)%nat then false
  else if negb (String.eqb o "0") && prefixb "0" o then false
  else (dec_value 0 o <=? 255)%nat.

(** [ipaddress.IPv4Address(h)] does not raise. *)
Definition ipv4_ok (h : string) : bool :=
  negb (has_char "/"%char h) && negb (String.eqb h "")
  && (let octets := py_split "."%char h in
      (length octets =? 4)%nat && forallb octet_ok octets).

(** [ipaddress.IPv6Address._parse_hextet] does not raise. *)
Definition hextet_ok (h : string) : bool :=
  str_forallb is_hex_digit h && (String.length h <=? 4)%nat
  && negb (String.eqb h "").

(** The indices [i] in [range(1, len(parts) - 1)] with [not parts[i]]. *)
Definition inner_empty (parts : list string) : list nat :=
  filter (fun i => String.eqb (nth i parts "") "") (seq 1 (length parts - 2)).

(** [ipaddress.IPv6Address._ip_int_from_string(ip_str)] does not raise. *)
Definition ipv6_int_ok (ip_str : string) : bool :=
  if String.eqb ip_str "" then false else
  let parts0 := py_split ":"%char ip_str in
  if (length parts0 <? 3)%nat then false else
  let tail := last parts0 "" in
  let parts :=
    if has_char "."%char tail then
      if ipv4_ok tail then Some (removelast parts0 ++ ["0"; "0"]) else None
    else Some parts0 in
  match parts with
  | None => false
  | Some parts =>
      let n := length parts in
      if (9 <? n)%nat then false else
      match inner_empty parts with
      | [] =>
          (n =? 8)%nat && negb (String.eqb (nth 0 parts "") "")
          && negb (String.eqb (last parts "") "")
          && forallb hextet_ok parts
      | [skip_index] =>
          let hi := skip_index in
          let lo := n - skip_index - 1 in
          let '(hi, ok_hi) :=
            if String.eqb (nth 0 parts "") "" then (hi - 1, (hi - 1 =? 0)%nat)
            else (hi, true) in
          let '(lo, ok_lo) :=
            if String.eqb (last parts "") "" then (lo - 1, (lo - 1 =? 0)%nat)
            else (lo, true) in
          ok_hi && ok_lo && (hi + lo <? 8)%nat
          && forallb hextet_ok (firstn hi parts)
          && forallb hextet_ok (skipn (n - lo) parts)
      | _ :: _ :: _ => false
      end
  end.

(** [ipaddress.IPv6Address(h)] does not raise: no ['/'], an optional
    non-empty [%scope_id] without a further ['%'], and a valid address. *)
Definition ipv6_ok (h : string) : bool :=
  negb (has_char "/"%char h)
  && (let '(addr, sep, scope_id) := partition "%"%char h in
      (if sep then negb (String.eqb scope_id "")
                   && negb (has_char "%"%char scope_id)
       else true)
      && ipv6_int_ok addr).

(** [re.match(r"\Av[a-fA-F0-9]+\..+\Z", h)] succeeds. *)
Definition ipvfuture_ok (h : string) : bool :=
  match h with
  | String v r =>
      Ascii.eqb v "v"%char &&
      (fix hex_run (started : bool) (s : string) : bool :=
         match s with
         | String c s' =>
             if is_hex_digit c then hex_run true s'
             else if Ascii.eqb c "."%char then
               started && negb (String.eqb s' "")
               && negb (has_char (ascii_of_nat 10) s')
             else false
         | EmptyString => false
         end) false r
  | EmptyString => false
  end.

(** [_check_bracketed_host(h)] does not raise: an IPvFuture literal when
    [h] starts with ['v'], otherwise an address that
    [ipaddress.ip_address] accepts and that is not IPv4. *)
Definition check_bracketed_host (h : string) : bool :=
  if prefixb "v" h then ipvfuture_ok h
  else if ipv4_ok h then false
  else ipv6_ok h.

Definition urlparse_netloc (url : string) : option string :=
  let u := split_scheme (remove_unsafe (lstrip_c0 url)) in
  match u with
  | String c1 (String c2 r) =>
      if Ascii.eqb c1 "/"%char && Ascii.eqb c2 "/"%char then
        let netloc := take_netloc r in
        if (has_char "["%char netloc && negb (has_char "]"%char netloc))
           || (has_char "]"%char netloc && negb (has_char "["%char netloc))
        then None
        else if has_char "["%char netloc && has_char "]"%char netloc then
          let '(_, _, after_open) := partition "["%char netloc in
          let '(bracketed_host, _, _) := partition "]"%char after_open in
          if check_bracketed_host bracketed_host then Some netloc else None
        else Some netloc
      else Some ""
  | _ => Some ""
  end.

(* ------------------------------------------------------------------ *)
(** ** Exceptions, HTTP responses, documents *)

(** The exception classes that matter to the control flow.
    [RequestException] covers every [requests] error, including the
    [HTTPError] raised by [raise_for_status]; [LoaderError] is whatever
    a third-party document reader raises. *)
Inductive exn : Type :=
| RequestException
| ParseError
| ValueError
| IndexError
| LoaderError.

Definition is_request_exception (e : exn) : bool :=
  match e with RequestException => true | _ => false end.

Definition is_request_or_parse (e : exn) : bool :=
  match e with RequestException | ParseError => true | _ => false end.

(** What the third-party parsers make of a response body.
    [xml_locs]: [ET.fromstring(body).findall("ns:url/ns:loc", ns)] texts,
    or [None] when [ET.fromstring] raises [ParseError];
    [soup_text]: [BeautifulSoup(body, "html.parser").get_text()];
    [soup_hrefs]: the [href] of every [soup.find_all("a", href=True)]. *)
Record body : Type := mkBody {
  xml_locs : option (list string);
  soup_text : string;
  soup_hrefs : list string
}.

Record response : Type := mkResponse {
  status_code : Z;
  content : body
}.

(** [llama_index.core.Document(text=..., extra_info={"url": url})] *)
Record Document : Type := mkDocument {
  doc_text : string;
  doc_url : string
}.

(** The call site of a [requests.get]. *)
Inductive site : Type := SitemapGet | ContentGet | LinksGet.

Record event : Type := Get { ev_site : site; ev_url : string }.

Definition site_eqb (a b : site) : bool :=
  match a, b with
  | SitemapGet, SitemapGet | ContentGet, ContentGet | LinksGet, LinksGet => true
  | _, _ => false
  end.

(** The URLs requested at call site [s], newest first. *)
Definition urls_at (s : site) (evs : list event) : list string :=
  map ev_url (filter (fun e => site_eqb (ev_site e) s) evs).

(** The mutable world: the global [translate_client] (only whether it is
    [None] matters) and the requests issued so far, newest first. *)
Record world : Type := mkWorld {
  client_ready : bool;
  trace : list event
}.

Inductive res (A : Type) : Type :=
| Ok (a : A)
| Err (e : exn)
| OutOfFuel.
Arguments Ok {A} a.
Arguments Err {A} e.
Arguments OutOfFuel {A}.

Definition M (A : Type) : Type := world -> world * res A.

Definition ret {A} (a : A) : M A := fun w => (w, Ok a).

Definition bind {A B} (m : M A) (k : A -> M B) : M B :=
  fun w =>
    match m w with
    | (w1, Ok a) => k a w1
    | (w1, Err e) => (w1, Err e)
    | (w1, OutOfFuel) => (w1, OutOfFuel)
    end.

Notation "x <- m ;; k" := (bind m (fun x => k))
  (at level 61, m at next level, right associativity).

Definition raise {A} (e : exn) : M A := fun w => (w, Err e).

Definition out_of_fuel {A} : M A := fun w => (w, OutOfFuel).

(** [try: m except <catches> as e: handler e] *)
Definition try_except {A} (catches : exn -> bool) (m : M A)
  (handler : exn -> M A) : M A :=
  fun w =>
    match m w with
    | (w1, Err e) => if catches e then handler e w1 else (w1, Err e)
    | r => r
    end.

(** A call that raises [e] where the pure model answers [None]. *)
Definition lift_opt {A} (e : exn) (o : option A) : M A :=
  match o with Some a => ret a | None => raise e end.

Definition get_client_ready : M bool := fun w => (w, Ok (client_ready w)).

Definition set_client_ready : M unit :=
  fun w => (mkWorld true (trace w), Ok tt).

(** [response.raise_for_status()]: raises for 400 <= status < 600. *)
Definition http_error_status (r : response) : bool :=
  (400 <=? status_code r)%Z && (status_code r <? 600)%Z.

Definition raise_for_status (r : response) : M unit :=
  if http_error_status r then raise RequestException else ret tt.

(* ------------------------------------------------------------------ *)
(** ** A small example site

    [example_web sitemap]: [/docs] links to [/docs/a] and to another host,
    [/moved] answers 300 Multiple Choices (no redirect is followed),
    [/gone] answers 404; [/sitemap.xml] lists [sitemap] when given and
    answers 404 otherwise; every other URL fails to connect. *)
Definition example_web (sitemap : option (list string)) (u : string)
  : option response :=
  if String.eqb u "https://example.com/docs" then
    Some (mkResponse 200 (mkBody None "Docs" ["/docs/a"; "https://other.com/x"]))
  else if String.eqb u "https://example.com/docs/a" then
    Some (mkResponse 200 (mkBody None "A" []))
  else if String.eqb u "https://example.com/moved" then
    Some (mkResponse 300 (mkBody None "Multiple Choices" []))
  else if String.eqb u "https://example.com/gone" then
    Some (mkResponse 404 (mkBody None "Not Found" []))
  else if String.eqb u "https://example.com/sitemap.xml" then
    match sitemap with
    | Some locs => Some (mkResponse 200 (mkBody (Some locs) "" []))
    | None => Some (mkResponse 404 (mkBody None "Not Found" []))
    end
  else None.

(** [urljoin] restricted to the hrefs of the example: absolute URLs are
    kept, other hrefs are resolved against the base's host. *)
Definition example_urljoin (base href : string) : option string :=
  match urlparse_netloc href with
  | None => None
  | Some "" =>
      match urlparse_netloc base with
      | Some n =>
          if prefixb "/" href then Some ("https://" ++ n ++ href)%string
          else Some ("https://" ++ n ++ "/" ++ href)%string
      | None => None
      end
  | Some _ => Some href
  end.

Definition example_world : world := mkWorld false [].

(** A stand-in for chromadb's name check: it refuses names with a space. *)
Definition example_valid_name (n : string) : bool := negb (has_char " "%char n).

(** An index build that writes one entry per Document, its text, and
    returns; and one that raises after writing the first entry. *)
Definition example_index_ok (ds : list Document) : list string * bool :=
  (map doc_text ds, true).

Definition example_index_partial (ds : list Document) : list string * bool :=
  (firstn 1 (map doc_text ds), false).

(** A PDF reader that reads only [manual.pdf] and raises on any other path. *)
Definition example_pdf_reader (p : string) : option (list Document) :=
  if String.eqb p "manual.pdf" then Some [mkDocument "Manual" p] else None.

(* ------------------------------------------------------------------ *)
(** ** The crawler, over an arbitrary web and translation service *)

Ltac split_and := repeat match goal with |- _ /\ _ => split end.

Ltac monad_simpl :=
  unfold bind, ret, raise, try_except, lift_opt, out_of_fuel,
    get_client_ready, set_client_ready in *; simpl in *.

Ltac split_matches :=
  repeat (monad_simpl;
          match goal with
          | |- context [match ?x with _ => _ end] =>
              lazymatch x with
              | context [match _ with _ => _ end] => fail
              | _ => destruct x eqn:?
              end
          end).

(* ------------------------------------------------------------------ *)
(** ** The Chroma database used by the index builders

    A persistent Chroma database: its collections by name, in creation
    order, each with the entries the vector store wrote to it. *)
Definition chroma (A : Type) : Type := list (string * list A).

Definition collection_names {A} (db : chroma A) : list string := map fst db.

(** The entries of collection [n], [None] when there is none. *)
Fixpoint lookup_collection {A} (n : string) (db : chroma A) : option (list A) :=
  match db with
  | [] => None
  | (m, c) :: db' => if String.eqb m n then Some c else lookup_collection n db'
  end.

(** [db.delete_collection(name=n)]: raises ([None]) when there is no
    collection [n]. *)
Fixpoint delete_collection {A} (n : string) (db : chroma A) : option (chroma A) :=
  match db with
  | [] => None
  | (m, c) :: db' =>
      if String.eqb m n then Some db'
      else match delete_collection n db' with
           | Some d => Some ((m, c) :: d)
           | None => None
           end
  end.

(** [db.get_or_create_collection(n)]: raises ([None]) when chromadb
    refuses the name ([valid n] is false); otherwise it creates an empty
    collection [n] when there is none. *)
Definition get_or_create_collection {A} (valid : string -> bool) (n : string)
  (db : chroma A) : option (chroma A) :=
  if valid n
  then Some (if mem n (collection_names db) then db else (db ++ [(n, [])])%list)
  else None.

(** The vector store writing entries [es] to the collection [n]. *)
Fixpoint add_to_collection {A} (n : string) (es : list A) (db : chroma A) : chroma A :=
  match db with
  | [] => []
  | (m, c) :: db' =>
      if String.eqb m n then (m, (c ++ es)%list) :: db'
      else (m, c) :: add_to_collection n es db'
  end.

(** Whether an index builder returned or raised. *)
Inductive outcome : Type := Returned | Raised.

Section Crawler.

(** [requests.get(url)]: [None] when the transport raises a
    [RequestException] (connection error, timeout, too many redirects,
    invalid URL); otherwise the final response.  The web is a snapshot:
    two requests to the same URL see the same answer. *)
Variable http_get : string -> option response.

(** [urljoin(base, href)]: [None] when it raises [ValueError]. *)
Variable urljoin : string -> string -> option string.

(** Whether [translate.Client()] succeeds. *)
Variable translate_client_init_ok : bool.

(** [translate_client.translate(text, target_language=lang)["translatedText"]],
    [None] when the call (or the lookup) raises. *)
Variable translate_api : string -> string -> option string.

(** [UnstructuredReader().load_data(file=path, ...)], [None] when it
    raises (missing or unreadable file, parser failure). *)
Variable pdf_load_data : string -> option (list Document).

(** [requests.get] at a call site: the request is recorded in the trace. *)
Definition requests_get (s : site) (url : string) : M response :=
  fun w =>
    (mkWorld (client_ready w) (Get s url :: trace w),
     match http_get url with
     | Some r => Ok r
     | None => Err RequestException
     end).

(** [fetch_sitemap_urls(base_url)] *)
Definition fetch_sitemap_urls (base_url : string) : M (list string) :=
  sitemap_url <- lift_opt ValueError (urljoin base_url "sitemap.xml") ;;
  try_except is_request_or_parse
    (response <- requests_get SitemapGet sitemap_url ;;
     _ <- raise_for_status response ;;
     urls <- lift_opt ParseError (xml_locs (content response)) ;;
     match urls with
     | [] => ret []
     | _ :: _ => ret urls
     end)
    (fun _ => ret []).

(** [translate_client.translate(...)] inside [try ... except Exception]. *)
Definition translate_call (text target_language : string) : M string :=
  match translate_api text target_language with
  | Some translated => ret translated
  | None => ret text
  end.

(** [translate_text(text, target_language)] with the lazily created
    global client. *)
Definition translate_text (text target_language : string) : M string :=
  ready <- get_client_ready ;;
  if ready then translate_call text target_language
  else if translate_client_init_ok then
    (_ <- set_client_ready ;; translate_call text target_language)
  else ret text.

(** [process_url(url, translate_to)] *)
Definition process_url (url : string) (translate_to : option string)
  : M (option Document) :=
  try_except is_request_exception
    (response <- requests_get ContentGet url ;;
     _ <- raise_for_status response ;;
     let page_text := soup_text (content response) in
     page_text' <-
       (match translate_to with
        | Some lang =>
            if truthy translate_to then translate_text page_text lang
            else ret page_text
        | None => ret page_text
        end) ;;
     ret (Some (mkDocument page_text' url)))
    (fun _ => ret None).

(** The loop's local variables [visited], [documents], [queue]. *)
Record loop_state : Type := mkLoop {
  visited : list string;
  documents : list Document;
  queue : list string
}.

(** [for link in soup.find_all("a", href=True): ...] *)
Fixpoint enqueue_links (current_url : string) (vis : list string)
  (hrefs : list string) (q : list string) : M (list string) :=
  match hrefs with
  | [] => ret q
  | href :: rest =>
      absolute_link <- lift_opt ValueError (urljoin current_url href) ;;
      enqueue_links current_url vis rest
        (if mem absolute_link vis then q else (q ++ [absolute_link])%list)
  end.

(** The [if recursive:] block: a second fetch of the page for its links. *)
Definition harvest_links (current_url : string) (vis : list string)
  (q : list string) : M (list string) :=
  try_except is_request_exception
    (response <- requests_get LinksGet current_url ;;
     _ <- raise_for_status response ;;
     enqueue_links current_url vis (soup_hrefs (content response)) q)
    (fun _ => ret q).

(** One iteration of [while queue:], the dequeued URL being [current_url]. *)
Definition crawl_body (recursive : bool) (translate_to : option string)
  (base_domain : string) (current_url : string) (st : loop_state)
  (k : loop_state -> M loop_state) : M loop_state :=
  if mem current_url (visited st) || ignored current_url then k st
  else
    netloc <- lift_opt ValueError (urlparse_netloc current_url) ;;
    if negb (String.eqb netloc base_domain) then k st
    else
      let vis := current_url :: visited st in
      doc <- process_url current_url translate_to ;;
      let docs := match doc with
                  | Some d => (documents st ++ [d])%list
                  | None => documents st
                  end in
      q <- (if recursive then harvest_links current_url vis (queue st)
            else ret (queue st)) ;;
      k (mkLoop vis docs q).

(** [while queue: current_url = queue.pop(0); ...], at most [fuel]
    iterations. *)
Fixpoint crawl_loop (fuel : nat) (recursive : bool)
  (translate_to : option string) (base_domain : string) (st : loop_state)
  : M loop_state :=
  match queue st with
  | [] => ret st
  | current_url :: rest =>
      match fuel with
      | O => out_of_fuel
      | S fuel' =>
          crawl_body recursive translate_to base_domain current_url
            (mkLoop (visited st) (documents st) rest)
            (crawl_loop fuel' recursive translate_to base_domain)
      end
  end.

(** [crawl_and_scrape(urls, recursive, translate_to)] *)
Definition crawl_and_scrape (fuel : nat) (urls : list string)
  (recursive : bool) (translate_to : option string) : M (list Document) :=
  match urls with
  | [] => raise IndexError
  | first_url :: _ =>
      base_domain <- lift_opt ValueError (urlparse_netloc first_url) ;;
      st <- crawl_loop fuel recursive translate_to base_domain
              (mkLoop [] [] urls) ;;
      ret (documents st)
  end.

(** The command-line arguments of create_knowledge_base.py. *)
Record args : Type := mkArgs {
  args_urls : list string;
  args_pdfs : list string;
  args_recursive : bool;
  args_translate_to : option string
}.

(** [load_documents_from_sources(args)] *)
Definition load_documents_from_sources (fuel : nat) (a : args)
  : M (list Document) :=
  web_docs <-
    (match args_urls a with
     | [] => ret []
     | first_url :: _ =>
         sitemap_urls <- fetch_sitemap_urls first_url ;;
         let scrape_urls := match sitemap_urls with
                            | [] => args_urls a
                            | _ :: _ => sitemap_urls
                            end in
         crawl_and_scrape fuel scrape_urls (args_recursive a)
           (args_translate_to a)
     end) ;;
  pdf_docs <-
    (match args_pdfs a with
     | [] => ret []
     | first_pdf :: _ => lift_opt LoaderError (pdf_load_data first_pdf)
     end) ;;
  ret (web_docs ++ pdf_docs)%list.

(** [load_api_reference_documents(url)] of create_core_knowledge_base.py;
    its [except Exception] catches every exception. *)
Definition load_api_reference_documents (fuel : nat) (url : string)
  : M (list Document) :=
  try_except (fun _ => true)
    (sitemap_urls <- fetch_sitemap_urls url ;;
     let scrape_urls := match sitemap_urls with
                        | [] => [url]
                        | _ :: _ => sitemap_urls
                        end in
     let recursive := match sitemap_urls with
                      | [] => true
                      | _ :: _ => false
                      end in
     crawl_and_scrape fuel scrape_urls recursive None)
    (fun _ => ret []).


(* ------------------------------------------------------------------ *)
(** ** The other loaders and the index builders *)

(** [os.getenv(name)] *)
Variable getenv : string -> option string.

(** [ConfluenceReader(base_url=b, user_name=u, api_token=k)
    .load_data(space_key=s, include_attachments=False)]; [None] when the
    constructor or the call raises. *)
Variable confluence_load : string -> string -> string -> string -> option (list Document).

(** [load_confluence_documents(base_url, space_key)] of
    create_core_knowledge_base.py. *)
Definition load_confluence_documents (base_url space_key : string) : list Document :=
  let username := getenv "CONFLUENCE_USERNAME" in
  let api_key := getenv "CONFLUENCE_API_KEY" in
  match username, api_key with
  | Some u, Some k =>
      if String.eqb u "" || String.eqb k "" then []
      else match confluence_load base_url u k space_key with
           | Some documents => documents
           | None => []
           end
  | _, _ => []
  end.

(** Whether [chromadb.PersistentClient(path="./chroma_db")] succeeds. *)
Variable chroma_open_ok : bool.

(** Whether [db.list_collections()] yields collection objects, which have
    a [.name] (chromadb before 0.6), rather than bare names. *)
Variable collections_have_name : bool.

(** chromadb's check of a collection name in [get_or_create_collection]
    (length, allowed characters, ...). *)
Variable valid_collection_name : string -> bool.

(** Whether [google.auth.default()] and [VertexTextEmbedding(...)] succeed. *)
Variable embed_setup_ok : bool.

(** The entries a vector store keeps. *)
Variable node : Type.

(** [VectorStoreIndex.from_documents(documents, ...)]: the entries it
    writes to the collection of its vector store, and whether it returns
    ([false]: it raises, for instance on an embedding API error, after
    writing those entries). *)
Variable from_documents : list Document -> list node * bool.

(** [str.lower] *)
Variable py_lower : string -> string.

(** [[c.name for c in db.list_collections()]]: when the listing yields
    bare names, [c.name] raises [AttributeError] on the first one. *)
Definition existing_collection_names (db : chroma node) : option (list string) :=
  if collections_have_name then Some (collection_names db)
  else match db with [] => Some [] | _ :: _ => None end.

(** [build_core_index(documents)] of create_core_knowledge_base.py, on the
    database [./chroma_db].  [ChromaVectorStore(...)] and
    [StorageContext.from_defaults(...)] only wrap the collection and are
    modelled as succeeding. *)
Definition build_core_index (documents : list Document) (db : chroma node)
  : chroma node * outcome :=
  match documents with
  | [] => (db, Returned)
  | _ :: _ =>
      if negb chroma_open_ok then (db, Raised) else
      let collection_name := "core_knowledge" in
      match existing_collection_names db with
      | None => (db, Raised)
      | Some existing_collections =>
          match (if mem collection_name existing_collections
                 then delete_collection collection_name db else Some db) with
          | None => (db, Raised)
          | Some db1 =>
              match get_or_create_collection valid_collection_name collection_name db1 with
              | None => (db1, Raised)
              | Some db2 =>
                  if embed_setup_ok then
                    let '(written, returned) := from_documents documents in
                    (add_to_collection collection_name written db2,
                     if returned then Returned else Raised)
                  else (db2, Raised)
              end
          end
      end
  end.

(** [build_and_save_index(name, documents, overwrite)] of
    create_knowledge_base.py, on the database [./chroma_db]. *)
Definition build_and_save_index (name : string) (documents : list Document)
  (overwrite : bool) (db : chroma node) : chroma node * outcome :=
  if negb chroma_open_ok then (db, Raised) else
  let collection_name := (py_lower name ++ "_docs")%string in
  match (if overwrite then delete_collection collection_name db else Some db) with
  | None => (db, Raised)
  | Some db1 =>
      match get_or_create_collection valid_collection_name collection_name db1 with
      | None => (db1, Raised)
      | Some db2 =>
          if embed_setup_ok then
            let '(written, returned) := from_documents documents in
            (add_to_collection collection_name written db2,
             if returned then Returned else Raised)
          else (db2, Raised)
      end
  end.

(* ------------------------------------------------------------------ *)
(** ** Derived notions used in the statements *)

(** Whether [requests.get(url)] followed by [raise_for_status()] succeeds. *)
Definition fetch_ok (u : string) : bool :=
  match http_get u with
  | Some r => negb (http_error_status r)
  | None => false
  end.

(** The hrefs the link harvest of [u] sees when its fetch succeeds. *)
Definition page_hrefs (u : string) : list string :=
  match http_get u with
  | Some r => if http_error_status r then [] else soup_hrefs (content r)
  | None => []
  end.

(** The requests issued by visiting the URLs [vis] (newest first). *)
Definition visit_events (recursive : bool) (vis : list string) : list event :=
  flat_map (fun u => if recursive then [Get LinksGet u; Get ContentGet u]
                     else [Get ContentGet u]) vis.

(** The dequeue-time filter accepts [u] for the base domain [base]. *)
Definition in_scope (base u : string) : Prop :=
  ignored u = false /\ urlparse_netloc u = Some base.

(** [x] is the [urljoin] of an href of a visited page, in recursive mode. *)
Definition link_from (recursive : bool) (vis : list string) (x : string) : Prop :=
  exists u h, In u vis /\ recursive = true /\ In h (page_hrefs u) /\
              urljoin u h = Some x.

(** The in-scope URLs reachable from the seeds: the in-scope seeds and, in
    recursive mode, the in-scope [urljoin]s of the hrefs of reachable pages
    whose fetch succeeds. *)
Inductive reachable (recursive : bool) (base : string) (seeds : list string)
  : string -> Prop :=
| reachable_seed (u : string) :
    In u seeds -> in_scope base u -> reachable recursive base seeds u
| reachable_link (u h a : string) :
    reachable recursive base seeds u -> recursive = true ->
    In h (page_hrefs u) -> urljoin u h = Some a -> in_scope base a ->
    reachable recursive base seeds a.

(* ------------------------------------------------------------------ *)
(** ** Lemmas on one step *)

Lemma process_url_spec (u : string) (translate_to : option string) (w : world) :
  exists c od,
    process_url u translate_to w = (mkWorld c (Get ContentGet u :: trace w), Ok od) /\
    match od with
    | None => fetch_ok u = false
    | Some d => fetch_ok u = true /\ doc_url d = u
    end.
Proof.
  unfold process_url, requests_get, raise_for_status, translate_text,
    translate_call, fetch_ok.
  split_matches; eexists _, _; split; try reflexivity; simpl;
    try rewrite Heqb; auto.
Qed.

Lemma mem_spec (u : string) (l : list string) : mem u l = true <-> In u l.
Proof.
  unfold mem; rewrite existsb_exists; split.
  - intros [x [Hx Heq]]; apply String.eqb_eq in Heq; subst; exact Hx.
  - intros H; exists u; split; [exact H | apply String.eqb_refl].
Qed.

Lemma mem_false (u : string) (l : list string) : mem u l = false <-> ~ In u l.
Proof.
  rewrite <- mem_spec; destruct (mem u l); split; congruence.
Qed.

Lemma enqueue_links_spec (u : string) (vis hrefs q : list string) (w : world) :
  exists r, enqueue_links u vis hrefs q w = (w, r) /\
    (r = Err ValueError \/
     exists l, r = Ok (q ++ l) /\
       forall a, In a l <->
         (mem a vis = false /\ exists h, In h hrefs /\ urljoin u h = Some a)).
Proof.
  revert q; induction hrefs as [|h hs IH]; intros q; simpl.
  - exists (Ok q); split; [reflexivity|]; right; exists []; split.
    + rewrite app_nil_r; reflexivity.
    + intros a; split; [intros []|intros [_ [h [[] _]]]].
  - destruct (urljoin u h) as [a|] eqn:Hj; monad_simpl.
    + destruct (IH (if mem a vis then q else q ++ [a])) as [r [Hr Hcases]].
      exists r; split; [exact Hr|].
      destruct Hcases as [Herr | [l [Hok Hl]]]; [left; exact Herr|right].
      destruct (mem a vis) eqn:Ha.
      * exists l; split; [exact Hok|]; intros b; rewrite Hl; split.
        -- intros [Hb [h' [Hin Hj']]]; split; [exact Hb|]; exists h'; auto.
        -- intros [Hb [h' [[Heq|Hin] Hj']]].
           ++ subst h'; rewrite Hj in Hj'; injection Hj' as <-; congruence.
           ++ split; [exact Hb|]; exists h'; auto.
      * exists (a :: l); split; [rewrite Hok, <- app_assoc; reflexivity|].
        intros b; simpl; rewrite Hl; split.
        -- intros [<-|[Hb [h' [Hin Hj']]]].
           ++ split; [exact Ha|]; exists h; auto.
           ++ split; [exact Hb|]; exists h'; auto.
        -- intros [Hb [h' [[Heq|Hin] Hj']]].
           ++ subst h'; rewrite Hj in Hj'; injection Hj' as <-; left; reflexivity.
           ++ right; split; [exact Hb|]; exists h'; auto.
    + exists (Err ValueError); split; [reflexivity|left; reflexivity].
Qed.

Lemma harvest_links_spec (u : string) (vis q : list string) (w : world) :
  exists r,
    harvest_links u vis q w =
      (mkWorld (client_ready w) (Get LinksGet u :: trace w), r) /\
    (r = Err ValueError \/
     exists l, r = Ok (q ++ l) /\
       forall a, In a l <->
         (mem a vis = false /\ exists h, In h (page_hrefs u) /\ urljoin u h = Some a)).
Proof.
  unfold harvest_links, requests_get, raise_for_status, page_hrefs.
  destruct (http_get u) as [resp|].
  - monad_simpl; destruct (http_error_status resp); monad_simpl.
    + exists (Ok q); split; [reflexivity|]; right; exists []; split.
      * rewrite app_nil_r; reflexivity.
      * intros a; split; [intros []|intros [_ [h [[] _]]]].
    + destruct (enqueue_links_spec u vis (soup_hrefs (content resp)) q
                  (mkWorld (client_ready w) (Get LinksGet u :: trace w)))
        as [r [Hr Hcases]].
      rewrite Hr; destruct Hcases as [Herr | [l [Hok Hl]]]; subst r.
      * exists (Err ValueError); split; [reflexivity|left; reflexivity].
      * exists (Ok (q ++ l)); split; [reflexivity|right; exists l; auto].
  - monad_simpl; exists (Ok q); split; [reflexivity|]; right; exists []; split.
    + rewrite app_nil_r; reflexivity.
    + intros a; split; [intros []|intros [_ [h [[] _]]]].
Qed.

Lemma visit_events_cons (recursive : bool) (u : string) (vis : list string) :
  visit_events recursive (u :: vis) =
  (if recursive then [Get LinksGet u; Get ContentGet u] else [Get ContentGet u])
  ++ visit_events recursive vis.
Proof. reflexivity. Qed.

Arguments process_url : simpl never.
Arguments harvest_links : simpl never.

(* ------------------------------------------------------------------ *)
(** ** The loop invariant

    Started from a state satisfying it, every run of the loop (returning,
    raising or out of fuel) ends in a world whose new requests are exactly
    one content request, and in recursive mode one link request, per
    visited URL; the visited URLs are distinct and pass the dequeue-time
    filter; and, when the loop returns, the documents are, in order, those
    of the visited URLs whose fetch succeeds, and the queue is empty. *)

Lemma crawl_loop_inv (recursive : bool) (translate_to : option string)
  (base : string) (fuel : nat) :
  forall st w t0 w' r,
    trace w = visit_events recursive (visited st) ++ t0 ->
    NoDup (visited st) ->
    Forall (in_scope base) (visited st) ->
    map doc_url (documents st) = filter fetch_ok (rev (visited st)) ->
    crawl_loop fuel recursive translate_to base st w = (w', r) ->
    exists vis,
      trace w' = visit_events recursive vis ++ t0 /\
      NoDup vis /\ Forall (in_scope base) vis /\ incl (visited st) vis /\
      forall st', r = Ok st' ->
        visited st' = vis /\
        map doc_url (documents st') = filter fetch_ok (rev vis) /\
        queue st' = [].
Proof.
  induction fuel as [|fuel IH];
    intros [vis docs q] w t0 w' r Htr Hnd Hsc Hdocs Hrun; simpl in *.
  - destruct q as [|u rest]; monad_simpl; injection Hrun as <- <-;
      exists vis; split_and; auto using incl_refl; intros st' Hst';
      try discriminate; injection Hst' as <-; auto.
  - destruct q as [|u rest].
    + monad_simpl; injection Hrun as <- <-.
      exists vis; split_and; auto using incl_refl; intros st' Hst';
        injection Hst' as <-; auto.
    + unfold crawl_body in Hrun; simpl in Hrun.
      destruct (mem u vis || ignored u) eqn:Hskip.
      { exact (IH (mkLoop vis docs rest) w t0 w' r Htr Hnd Hsc Hdocs Hrun). }
      apply orb_false_iff in Hskip as [Hfresh Hign].
      destruct (urlparse_netloc u) as [n|] eqn:Hn; monad_simpl.
      2:{ injection Hrun as <- <-; exists vis; split_and; auto using incl_refl;
          intros st' Hst'; discriminate. }
      destruct (String.eqb n base) eqn:Hb; simpl in Hrun.
      2:{ exact (IH (mkLoop vis docs rest) w t0 w' r Htr Hnd Hsc Hdocs Hrun). }
      apply String.eqb_eq in Hb; subst n.
      assert (Hnd' : NoDup (u :: vis)) by (constructor; [apply mem_false|]; auto).
      assert (Hsc' : Forall (in_scope base) (u :: vis))
        by (constructor; [split|]; auto).
      destruct (process_url_spec u translate_to w) as [c [od [Hp Hod]]].
      rewrite Hp in Hrun.
      set (docs' := match od with Some d => docs ++ [d] | None => docs end) in Hrun.
      assert (Hdocs' : map doc_url docs' = filter fetch_ok (rev (u :: vis))).
      { subst docs'; simpl rev; rewrite filter_app, <- Hdocs; simpl.
        destruct od as [d|].
        - destruct Hod as [Hok Hu]; rewrite Hok, map_app; simpl; rewrite Hu; reflexivity.
        - rewrite Hod, app_nil_r; reflexivity. }
      destruct recursive.
      * destruct (harvest_links_spec u (u :: vis) rest
                    (mkWorld c (Get ContentGet u :: trace w)))
          as [hr [Hh Hcases]].
        rewrite Hh in Hrun.
        assert (Htr' : trace (mkWorld c (Get LinksGet u :: Get ContentGet u :: trace w))
                       = visit_events true (u :: vis) ++ t0)
          by (simpl; rewrite Htr; reflexivity).
        destruct Hcases as [Herr | [l [Hok _]]]; subst hr.
        -- injection Hrun as <- <-; exists (u :: vis); split_and; auto.
           ++ intros x Hx; right; exact Hx.
           ++ intros st' Hst'; discriminate.
        -- destruct (IH (mkLoop (u :: vis) docs' (rest ++ l)) _ t0 w' r
                       Htr' Hnd' Hsc' Hdocs' Hrun)
             as [vis' [H1 [H2 [H3 [H4 H5]]]]].
           exists vis'; split_and; auto.
           intros x Hx; apply H4; right; exact Hx.
      * assert (Htr' : trace (mkWorld c (Get ContentGet u :: trace w))
                       = visit_events false (u :: vis) ++ t0)
          by (simpl; rewrite Htr; reflexivity).
        destruct (IH (mkLoop (u :: vis) docs' rest) _ t0 w' r
                    Htr' Hnd' Hsc' Hdocs' Hrun)
          as [vis' [H1 [H2 [H3 [H4 H5]]]]].
        exists vis'; split_and; auto.
        intros x Hx; apply H4; right; exact Hx.
Qed.

Lemma urls_at_content (recursive : bool) (vis : list string) :
  urls_at ContentGet (visit_events recursive vis) = vis.
Proof.
  unfold urls_at, visit_events; destruct recursive;
    induction vis as [|u vis IH]; simpl; try rewrite IH; reflexivity.
Qed.

Lemma urls_at_links (recursive : bool) (vis : list string) :
  urls_at LinksGet (visit_events recursive vis) = if recursive then vis else [].
Proof.
  unfold urls_at, visit_events; destruct recursive;
    induction vis as [|u vis IH]; simpl; try rewrite IH; reflexivity.
Qed.

Lemma in_visit_events (recursive : bool) (vis : list string) (e : event) :
  In e (visit_events recursive vis) -> In (ev_url e) vis.
Proof.
  induction vis as [|u vis IH]; [intros []|].
  rewrite visit_events_cons; intros H; apply in_app_or in H as [H|H].
  - left; destruct recursive; simpl in H;
      repeat (destruct H as [<-|H]; [reflexivity|]); contradiction.
  - right; auto.
Qed.

(** [crawl_and_scrape] inherits the loop invariant, for the base domain of
    its first URL. *)
Lemma crawl_and_scrape_inv (fuel : nat) (first : string) (rest : list string)
  (recursive : bool) (translate_to : option string) (w w' : world)
  (r : res (list Document)) :
  crawl_and_scrape fuel (first :: rest) recursive translate_to w = (w', r) ->
  exists vis,
    trace w' = visit_events recursive vis ++ trace w /\
    NoDup vis /\
    (forall u, In u vis ->
       ignored u = false /\ urlparse_netloc u = urlparse_netloc first) /\
    forall docs, r = Ok docs -> map doc_url docs = filter fetch_ok (rev vis).
Proof.
  unfold crawl_and_scrape; intros Hrun.
  destruct (urlparse_netloc first) as [base|] eqn:Hb; monad_simpl.
  2:{ injection Hrun as <- <-; exists []; split_and; auto using NoDup_nil;
      [intros u []|intros docs Hd; discriminate]. }
  destruct (crawl_loop fuel recursive translate_to base (mkLoop [] [] (first :: rest)) w)
    as [w1 r1] eqn:Hloop.
  destruct (crawl_loop_inv recursive translate_to base fuel
              (mkLoop [] [] (first :: rest)) w (trace w) w1 r1
              eq_refl (NoDup_nil _) (Forall_nil _) eq_refl Hloop)
    as [vis [H1 [H2 [H3 [_ H5]]]]].
  assert (Hw : w' = w1 /\ forall docs, r = Ok docs ->
                exists st', r1 = Ok st' /\ docs = documents st').
  { destruct r1 as [st'| |]; injection Hrun as <- <-; split; auto;
      intros docs Hd; try discriminate; injection Hd as <-; eauto. }
  destruct Hw as [-> Hr].
  exists vis; split_and; auto.
  - intros u Hu; rewrite Forall_forall in H3; apply H3 in Hu as [Hi Hn].
    rewrite Hn; auto.
  - intros docs Hd; destruct (Hr docs Hd) as [st' [-> ->]].
    destruct (H5 st' eq_refl) as [_ [Hdocs _]]; exact Hdocs.
Qed.

Lemma crawl_and_scrape_trace (fuel : nat) (urls : list string) (recursive : bool)
  (translate_to : option string) (w w' : world) (r : res (list Document)) :
  crawl_and_scrape fuel urls recursive translate_to w = (w', r) ->
  exists vis,
    trace w' = visit_events recursive vis ++ trace w /\ NoDup vis /\
    forall u, In u vis -> ignored u = false.
Proof.
  destruct urls as [|first rest]; intros Hrun.
  - simpl in Hrun; monad_simpl; injection Hrun as <- <-.
    exists []; split_and; auto using NoDup_nil; intros u [].
  - destruct (crawl_and_scrape_inv fuel first rest recursive translate_to w w' r Hrun)
      as [vis [H1 [H2 [H3 _]]]].
    exists vis; split_and; auto; intros u Hu; apply H3; exact Hu.
Qed.

(* ------------------------------------------------------------------ *)
(** ** Claims on [crawl_and_scrape] *)

(** C2: every Document that [crawl_and_scrape] returns is for a URL whose
    host ([urlparse(..).netloc]) is that of the first URL of the input
    list, whatever page linked to it, and no two returned Documents carry
    the same URL, the URL being the string that the visited set holds
    (the code applies no normalisation of its own beyond [urljoin]). *)
Theorem crawl_and_scrape_scoped_and_unique (fuel : nat) (first : string)
  (rest : list string) (recursive : bool) (translate_to : option string)
  (w w' : world) (docs : list Document) :
  crawl_and_scrape fuel (first :: rest) recursive translate_to w = (w', Ok docs) ->
  Forall (fun d => urlparse_netloc (doc_url d) = urlparse_netloc first) docs /\
  NoDup (map doc_url docs).
Proof.
  intros Hrun.
  destruct (crawl_and_scrape_inv fuel first rest recursive translate_to w w' _ Hrun)
    as [vis [_ [Hnd [Hsc Hdocs]]]].
  specialize (Hdocs docs eq_refl).
  split.
  - rewrite Forall_forall; intros d Hd.
    assert (Hin : In (doc_url d) (filter fetch_ok (rev vis)))
      by (rewrite <- Hdocs; apply in_map; exact Hd).
    apply filter_In in Hin as [Hin _]; apply in_rev in Hin.
    apply Hsc; exact Hin.
  - rewrite Hdocs; apply NoDup_filter, NoDup_rev; exact Hnd.
Qed.

(** C3: in every run of [crawl_and_scrape] (returning, raising or cut
    short), the page-content requests it issues are for pairwise distinct
    URLs; so are its link-harvest requests, each of which re-fetches a URL
    whose content request it has issued. *)
Theorem crawl_and_scrape_fetches_at_most_once (fuel : nat) (urls : list string)
  (recursive : bool) (translate_to : option string) (w w' : world)
  (r : res (list Document)) :
  crawl_and_scrape fuel urls recursive translate_to w = (w', r) ->
  exists new,
    trace w' = new ++ trace w /\
    NoDup (urls_at ContentGet new) /\
    NoDup (urls_at LinksGet new) /\
    incl (urls_at LinksGet new) (urls_at ContentGet new).
Proof.
  intros Hrun.
  destruct (crawl_and_scrape_trace fuel urls recursive translate_to w w' r Hrun)
    as [vis [Htr [Hnd _]]].
  exists (visit_events recursive vis); split_and; auto;
    rewrite ?urls_at_content, ?urls_at_links; destruct recursive;
    auto using NoDup_nil, incl_refl, incl_nil_l.
Qed.

(** C6: in every run of [crawl_and_scrape], no request is issued for a URL
    that contains one of the [IGNORE_PATTERNS]. *)
Theorem crawl_and_scrape_never_fetches_ignored (fuel : nat) (urls : list string)
  (recursive : bool) (translate_to : option string) (w w' : world)
  (r : res (list Document)) :
  crawl_and_scrape fuel urls recursive translate_to w = (w', r) ->
  exists new,
    trace w' = new ++ trace w /\
    forall u,
      (exists pattern, In pattern IGNORE_PATTERNS /\ contains pattern u = true) ->
      forall e, In e new -> ev_url e <> u.
Proof.
  intros Hrun.
  destruct (crawl_and_scrape_trace fuel urls recursive translate_to w w' r Hrun)
    as [vis [Htr [_ Hign]]].
  exists (visit_events recursive vis); split; auto.
  intros u [pattern [Hp Hc]] e He Heq; subst u.
  apply in_visit_events, Hign in He.
  unfold ignored in He.
  assert (Hex : existsb (fun p => contains p (ev_url e)) IGNORE_PATTERNS = true)
    by (apply existsb_exists; exists pattern; auto).
  congruence.
Qed.

(** C10: called with an empty URL list, [crawl_and_scrape] raises
    [IndexError] (from [urls[0]]) before any request, instead of returning
    an empty list. *)
Theorem crawl_and_scrape_empty_raises (fuel : nat) (recursive : bool)
  (translate_to : option string) (w : world) :
  crawl_and_scrape fuel [] recursive translate_to w = (w, Err IndexError).
Proof. reflexivity. Qed.

(* ------------------------------------------------------------------ *)
(** ** Error handling *)

(** C7: [translate_text] never raises; when the client cannot be created
    (no client yet and [translate.Client()] raises) or the translation call
    raises, it returns its input unchanged; and then [process_url] emits a
    Document whose text is exactly the extracted page text. *)
Theorem translation_failure_keeps_text (url lang : string) (resp : response)
  (w : world) :
  (client_ready w = false /\ translate_client_init_ok = false \/
   translate_api (soup_text (content resp)) lang = None) ->
  http_get url = Some resp -> http_error_status resp = false -> lang <> "" ->
  (forall text lang' w0, exists t, snd (translate_text text lang' w0) = Ok t) /\
  snd (translate_text (soup_text (content resp)) lang w) = Ok (soup_text (content resp)) /\
  snd (process_url url (Some lang) w) =
    Ok (Some (mkDocument (soup_text (content resp)) url)).
Proof.
  intros Hfail Hget Hstatus Hlang.
  assert (Htt : forall w0, (client_ready w0 = false /\ translate_client_init_ok = false \/
                 translate_api (soup_text (content resp)) lang = None) ->
                snd (translate_text (soup_text (content resp)) lang w0) =
                Ok (soup_text (content resp))).
  { intros w0 Hf; unfold translate_text, translate_call; monad_simpl.
    destruct Hf as [[Hc Hi] | Ha].
    - rewrite Hc, Hi; reflexivity.
    - rewrite Ha; destruct (client_ready w0), translate_client_init_ok; reflexivity. }
  split_and.
  - intros text lang' w0; unfold translate_text, translate_call;
      split_matches; simpl; eauto.
  - apply Htt; exact Hfail.
  - unfold process_url, requests_get, raise_for_status; monad_simpl.
    rewrite Hget, Hstatus; monad_simpl.
    assert (Hne : negb (lang =? "") = true)
      by (destruct (String.eqb_spec lang ""); [contradiction|reflexivity]).
    rewrite Hne.
    specialize (Htt (mkWorld (client_ready w) (Get ContentGet url :: trace w)) Hfail).
    destruct (translate_text (soup_text (content resp)) lang _) as [w1 r1].
    simpl in Htt; subst r1; reflexivity.
Qed.

(** C8 (amended): [process_url] returns no Document exactly when its fetch
    raises a [requests] exception, that is on a transport error or a final
    status in 400..599 (what [raise_for_status] rejects); any other status,
    3xx included, yields a Document for that URL.  A URL whose fetch fails is marked
    visited and the loop goes on with the rest of the queue, its link
    harvest (in recursive mode) failing the same way. *)
Theorem fetch_failure_skips_url (url : string) (translate_to : option string)
  (w : world) (recursive : bool) (base : string) (fuel : nat)
  (vis : list string) (docs : list Document) (rest : list string) :
  (snd (process_url url translate_to w) = Ok None <-> fetch_ok url = false) /\
  (fetch_ok url = false <->
   match http_get url with
   | None => True
   | Some resp => (400 <= status_code resp < 600)%Z
   end) /\
  (fetch_ok url = true ->
   exists d, snd (process_url url translate_to w) = Ok (Some d) /\ doc_url d = url) /\
  (fetch_ok url = false -> mem url vis = false -> ignored url = false ->
   urlparse_netloc url = Some base ->
   crawl_loop (S fuel) recursive translate_to base (mkLoop vis docs (url :: rest)) w =
   crawl_loop fuel recursive translate_to base (mkLoop (url :: vis) docs rest)
     (mkWorld (client_ready w) (visit_events recursive [url] ++ trace w))).
Proof.
  split_and.
  - destruct (process_url_spec url translate_to w) as [c [od [Hp Hod]]].
    rewrite Hp; simpl; destruct od as [d|]; split; intros H.
    + discriminate.
    + destruct Hod; congruence.
    + exact Hod.
    + reflexivity.
  - unfold fetch_ok, http_error_status; destruct (http_get url) as [resp|];
      [|split; auto].
    destruct (Z.leb_spec 400 (status_code resp)), (Z.ltb_spec (status_code resp) 600);
      simpl; split; intros; try reflexivity; try discriminate; lia.
  - intros Hok; destruct (process_url_spec url translate_to w) as [c [od [Hp Hod]]].
    rewrite Hp; simpl; destruct od as [d|].
    + exists d; split; [reflexivity|exact (proj2 Hod)].
    + rewrite Hod in Hok; discriminate.
  - intros Hf Hmem Hign Hn; simpl; unfold crawl_body; simpl.
    rewrite Hmem, Hign, Hn; monad_simpl; rewrite String.eqb_refl; simpl.
    assert (Hpu : process_url url translate_to w =
                  (mkWorld (client_ready w) (Get ContentGet url :: trace w), Ok None)).
    { unfold process_url, requests_get, raise_for_status, fetch_ok in *.
      monad_simpl; destruct (http_get url) as [resp|]; monad_simpl; [|reflexivity].
      destruct (http_error_status resp); [reflexivity|discriminate]. }
    rewrite Hpu; simpl.
    destruct recursive; simpl; [|reflexivity].
    assert (Hh : harvest_links url (url :: vis) rest
                   (mkWorld (client_ready w) (Get ContentGet url :: trace w)) =
                 (mkWorld (client_ready w) (Get LinksGet url :: Get ContentGet url :: trace w),
                  Ok rest)).
    { unfold harvest_links, requests_get, raise_for_status, fetch_ok in *.
      monad_simpl; destruct (http_get url) as [resp|]; monad_simpl; [|reflexivity].
      destruct (http_error_status resp); [reflexivity|discriminate]. }
    rewrite Hh; reflexivity.
Qed.


Arguments fetch_sitemap_urls : simpl never.
Arguments crawl_and_scrape : simpl never.

(* ------------------------------------------------------------------ *)
(** ** Sitemap discovery and the choice of the frontier *)

(** With link-following off, the loop only requests page content, and
    only for URLs that were in its queue. *)
Lemma crawl_loop_nonrecursive_within (translate_to : option string)
  (base : string) (S0 : list string) (fuel : nat) :
  forall st w w' r,
    incl (queue st) S0 ->
    crawl_loop fuel false translate_to base st w = (w', r) ->
    exists new, trace w' = new ++ trace w /\
      forall e, In e new -> ev_site e = ContentGet /\ In (ev_url e) S0.
Proof.
  induction fuel as [|fuel IH]; intros [vis docs q] w w' r Hq Hrun; simpl in *.
  - destruct q; monad_simpl; injection Hrun as <- <-; exists []; split;
      auto; intros e [].
  - destruct q as [|u rest].
    { monad_simpl; injection Hrun as <- <-; exists []; split; auto; intros e []. }
    assert (Hrest : incl rest S0) by (intros x Hx; apply Hq; right; exact Hx).
    unfold crawl_body in Hrun; simpl in Hrun.
    destruct (mem u vis || ignored u).
    { exact (IH (mkLoop vis docs rest) w w' r Hrest Hrun). }
    destruct (urlparse_netloc u) as [n|]; monad_simpl.
    2:{ injection Hrun as <- <-; exists []; split; auto; intros e []. }
    destruct (String.eqb n base); simpl in Hrun.
    2:{ exact (IH (mkLoop vis docs rest) w w' r Hrest Hrun). }
    destruct (process_url_spec u translate_to w) as [c [od [Hp _]]].
    rewrite Hp in Hrun; simpl in Hrun.
    destruct (IH _ _ w' r (Hrest : incl (queue (mkLoop (u :: vis) _ rest)) S0) Hrun)
      as [new [Htr Hnew]].
    exists (new ++ [Get ContentGet u]); split.
    + rewrite Htr, <- app_assoc; reflexivity.
    + intros e He; apply in_app_or in He as [He|[<-|[]]]; auto.
      split; [reflexivity|apply Hq; left; reflexivity].
Qed.

(** C9 (amended): when the sitemap request raises (transport error or a
    status in 400..599), its body is not well-formed XML, or it lists no
    [<url><loc>], [fetch_sitemap_urls] returns [[]] after one request and
    without raising (provided [urljoin(base_url, "sitemap.xml")] does not
    raise).  The callers then crawl the original seed list:
    [load_documents_from_sources] with link-following as given by
    [--recursive] (without it, every later request is a content fetch of
    a seed URL), [load_api_reference_documents] with link-following on. *)
Theorem sitemap_failure_falls_back (base sitemap_url : string) (w : world)
  (fuel : nat) (a : args) (rest : list string) :
  urljoin base "sitemap.xml" = Some sitemap_url ->
  match http_get sitemap_url with
  | None => True
  | Some resp =>
      http_error_status resp = true \/ xml_locs (content resp) = None \/
      xml_locs (content resp) = Some []
  end ->
  let w1 := mkWorld (client_ready w) (Get SitemapGet sitemap_url :: trace w) in
  fetch_sitemap_urls base w = (w1, Ok []) /\
  (args_urls a = base :: rest -> args_pdfs a = [] ->
   load_documents_from_sources fuel a w =
   crawl_and_scrape fuel (base :: rest) (args_recursive a) (args_translate_to a) w1) /\
  (args_urls a = base :: rest -> args_recursive a = false ->
   forall w' r, load_documents_from_sources fuel a w = (w', r) ->
   exists new, trace w' = new ++ trace w1 /\
     forall e, In e new -> ev_site e = ContentGet /\ In (ev_url e) (base :: rest)) /\
  load_api_reference_documents fuel base w =
  try_except (fun _ => true) (crawl_and_scrape fuel [base] true None)
    (fun _ => ret []) w1.
Proof.
  intros Hj Hfail w1.
  assert (Hf : fetch_sitemap_urls base w = (w1, Ok [])).
  { unfold fetch_sitemap_urls, requests_get, raise_for_status; rewrite Hj.
    monad_simpl; destruct (http_get sitemap_url) as [resp|]; monad_simpl;
      [|reflexivity].
    destruct Hfail as [He | [Hx | Hx]].
    - rewrite He; reflexivity.
    - destruct (http_error_status resp); [reflexivity|]; rewrite Hx; reflexivity.
    - destruct (http_error_status resp); [reflexivity|]; rewrite Hx; reflexivity. }
  split_and.
  - exact Hf.
  - intros Hurls Hpdfs; unfold load_documents_from_sources; rewrite Hurls, Hpdfs.
    monad_simpl; rewrite Hf; monad_simpl.
    destruct (crawl_and_scrape fuel (base :: rest) (args_recursive a)
                (args_translate_to a) w1) as [w2 [x| |]]; monad_simpl;
      rewrite ?app_nil_r; reflexivity.
  - intros Hurls Hr w' r Hrun; unfold load_documents_from_sources in Hrun.
    rewrite Hurls, Hr in Hrun; monad_simpl; rewrite Hf in Hrun; simpl in Hrun.
    unfold crawl_and_scrape in Hrun; monad_simpl.
    destruct (urlparse_netloc base) as [b|]; monad_simpl.
    + destruct (crawl_loop fuel false (args_translate_to a) b
                  (mkLoop [] [] (base :: rest)) w1) as [w2 r2] eqn:Hloop.
      destruct (crawl_loop_nonrecursive_within (args_translate_to a) b (base :: rest)
                  fuel (mkLoop [] [] (base :: rest)) _ _ _ (incl_refl _) Hloop)
        as [new [Htr Hnew]].
      exists new; split; auto.
      destruct r2; monad_simpl;
        [destruct (args_pdfs a) as [|p ps]; [|destruct (pdf_load_data p)]; monad_simpl|..];
        injection Hrun as <- _; exact Htr.
    + injection Hrun as <- _; exists []; split; auto; intros e [].
  - unfold load_api_reference_documents; unfold try_except at 1; monad_simpl.
    rewrite Hf; reflexivity.
Qed.

(** The sibling caller [load_api_reference_documents] treats a non-empty
    sitemap as authoritative: after the sitemap request, it only requests
    the content of URLs the sitemap lists, and harvests no links. *)
Lemma api_reference_sitemap_authoritative (fuel : nat) (url : string)
  (w w1 w' : world) (sm : list string) (r : res (list Document)) :
  fetch_sitemap_urls url w = (w1, Ok sm) -> sm <> [] ->
  load_api_reference_documents fuel url w = (w', r) ->
  exists new, trace w' = new ++ trace w1 /\
    forall e, In e new -> ev_site e = ContentGet /\ In (ev_url e) sm.
Proof.
  intros Hf Hne Hrun; unfold load_api_reference_documents in Hrun.
  unfold try_except at 1 in Hrun; monad_simpl; rewrite Hf in Hrun; simpl in Hrun.
  destruct sm as [|s ss]; [contradiction|]; simpl in Hrun.
  unfold crawl_and_scrape in Hrun; monad_simpl.
  destruct (urlparse_netloc s) as [base|]; monad_simpl.
  - destruct (crawl_loop fuel false None base (mkLoop [] [] (s :: ss)) w1)
      as [w2 r2] eqn:Hloop.
    destruct (crawl_loop_nonrecursive_within None base (s :: ss) fuel
                (mkLoop [] [] (s :: ss)) _ _ _ (incl_refl _) Hloop)
      as [new [Htr Hnew]].
    exists new; split; auto.
    destruct r2; monad_simpl; injection Hrun as <- _; exact Htr.
  - injection Hrun as <- _; exists []; split; auto; intros e [].
Qed.

(* ------------------------------------------------------------------ *)
(** ** Completeness and termination of the crawl *)

Lemma link_from_cons (recursive : bool) (u : string) (vis : list string) (x : string) :
  link_from recursive (u :: vis) x <->
  (recursive = true /\ exists h, In h (page_hrefs u) /\ urljoin u h = Some x)
  \/ link_from recursive vis x.
Proof.
  split.
  - intros [v [h [[<-|Hv] [Hr [Hh Hj]]]]]; [left; eauto|right; exists v, h; auto].
  - intros [[Hr [h [Hh Hj]]] | [v [h [Hv [Hr [Hh Hj]]]]]].
    + exists u, h; split_and; auto; left; reflexivity.
    + exists v, h; split_and; auto; right; exact Hv.
Qed.

Lemma link_from_nonrecursive (vis : list string) (x : string) :
  ~ link_from false vis x.
Proof. intros [v [h [_ [Hr _]]]]; discriminate. Qed.

(** When the queue is empty, the visited set is the reachable set. *)
Lemma visited_is_reachable (recursive : bool) (base : string)
  (seeds vis : list string) :
  (forall x, (In x seeds \/ link_from recursive vis x) -> in_scope base x ->
             In x vis) ->
  (forall x, In x vis -> reachable recursive base seeds x) ->
  forall x, reachable recursive base seeds x <-> In x vis.
Proof.
  intros Hcov Hsound x; split; [|apply Hsound].
  induction 1 as [u Hu Hs | u h a Hreach IH Hr Hh Hj Hs].
  - apply Hcov; auto.
  - apply Hcov; auto; right; exists u, h; auto.
Qed.

Lemma crawl_loop_complete (recursive : bool) (translate_to : option string)
  (base : string) (seeds : list string) (fuel : nat) :
  forall st w w' st',
    (forall x, In x (queue st) -> In x seeds \/ link_from recursive (visited st) x) ->
    (forall x, (In x seeds \/ link_from recursive (visited st) x) -> in_scope base x ->
               In x (visited st) \/ In x (queue st)) ->
    (forall x, In x (visited st) -> reachable recursive base seeds x) ->
    crawl_loop fuel recursive translate_to base st w = (w', Ok st') ->
    forall x, reachable recursive base seeds x <-> In x (visited st').
Proof.
  induction fuel as [|fuel IH];
    intros [vis docs q] w w' st' Horig Hcov Hsound Hrun; simpl in *.
  - destruct q; monad_simpl; [|discriminate].
    injection Hrun as <- <-; simpl.
    apply visited_is_reachable; auto.
    intros x Hx Hs; destruct (Hcov x Hx Hs) as [H|[]]; exact H.
  - destruct q as [|u rest].
    { monad_simpl; injection Hrun as <- <-; simpl.
      apply visited_is_reachable; auto.
      intros x Hx Hs; destruct (Hcov x Hx Hs) as [H|[]]; exact H. }
    unfold crawl_body in Hrun; simpl in Hrun.
    (* the skip cases keep the visited set and drop [u] from the queue *)
    assert (Hskip_ok : (forall x, x = u -> in_scope base x -> In x vis) ->
                       crawl_loop fuel recursive translate_to base
                         (mkLoop vis docs rest) w = (w', Ok st') ->
                       forall x, reachable recursive base seeds x <-> In x (visited st')).
    { intros Hu Hr; apply (IH (mkLoop vis docs rest) w w' st'); simpl; auto.
      - intros x Hx; apply Horig; right; exact Hx.
      - intros x Hx Hs; destruct (Hcov x Hx Hs) as [H|[<-|H]]; auto. }
    destruct (mem u vis || ignored u) eqn:Hskip.
    { apply Hskip_ok; auto; intros x -> Hs.
      apply orb_true_iff in Hskip as [Hm|Hi]; [apply mem_spec; exact Hm|].
      destruct Hs as [Hs _]; congruence. }
    apply orb_false_iff in Hskip as [Hfresh Hign].
    destruct (urlparse_netloc u) as [n|] eqn:Hn; monad_simpl; [|discriminate].
    destruct (String.eqb_spec n base) as [->|Hne]; simpl in Hrun.
    2:{ apply Hskip_ok; auto; intros x -> [_ Hs]; congruence. }
    assert (Hu_reach : reachable recursive base seeds u).
    { destruct (Horig u (or_introl eq_refl)) as [Hs | [v [h [Hv [Hr [Hh Hj]]]]]].
      - apply reachable_seed; [exact Hs|split; auto].
      - apply (reachable_link _ _ _ v h); auto; split; auto. }
    destruct (process_url_spec u translate_to w) as [c [od [Hp _]]].
    rewrite Hp in Hrun; simpl in Hrun.
    set (docs' := match od with Some d => docs ++ [d] | None => docs end) in Hrun.
    assert (Hsound' : forall x, In x (u :: vis) -> reachable recursive base seeds x)
      by (intros x [<-|Hx]; auto).
    destruct recursive.
    + destruct (harvest_links_spec u (u :: vis) rest
                  (mkWorld c (Get ContentGet u :: trace w))) as [hr [Hh Hcases]].
      rewrite Hh in Hrun.
      destruct Hcases as [Herr | [l [Hok Hl]]]; subst hr; monad_simpl;
        [discriminate|].
      refine (IH (mkLoop (u :: vis) docs' (rest ++ l)) _ w' st' _ _ _ Hrun);
        simpl; auto.
      * intros x Hx; apply in_app_or in Hx as [Hx|Hx].
        -- destruct (Horig x (or_intror Hx)) as [H|H]; [left; exact H|].
           right; apply link_from_cons; right; exact H.
        -- apply Hl in Hx as [_ Hx]; right; apply link_from_cons; left; auto.
      * intros x Hx Hs.
        destruct Hx as [Hx | Hx]; [|apply link_from_cons in Hx as [[_ Hx]|Hx]].
        -- destruct (Hcov x (or_introl Hx) Hs) as [H|[<-|H]];
             [left; right; exact H | left; left; reflexivity
             | right; apply in_or_app; left; exact H].
        -- destruct (mem x (u :: vis)) eqn:Hm; [left; apply (mem_spec x (u :: vis)); exact Hm|].
           right; apply in_or_app; right; apply Hl; auto.
        -- destruct (Hcov x (or_intror Hx) Hs) as [H|[<-|H]];
             [left; right; exact H | left; left; reflexivity
             | right; apply in_or_app; left; exact H].
    + refine (IH (mkLoop (u :: vis) docs' rest) _ w' st' _ _ _ Hrun); simpl; auto.
      * intros x Hx; destruct (Horig x (or_intror Hx)) as [H|H]; [left; exact H|].
        apply link_from_nonrecursive in H; contradiction.
      * intros x [Hx|Hx] Hs; [|apply link_from_nonrecursive in Hx; contradiction].
        destruct (Hcov x (or_introl Hx) Hs) as [H|[<-|H]];
          [left; right; exact H | left; left; reflexivity | right; exact H].
Qed.

Lemma crawl_loop_step_skip (fuel : nat) (recursive : bool)
  (translate_to : option string) (base : string) (vis : list string)
  (docs : list Document) (u : string) (rest : list string) (w : world) :
  (mem u vis || ignored u = true \/
   exists n, urlparse_netloc u = Some n /\ n <> base) ->
  crawl_loop (S fuel) recursive translate_to base (mkLoop vis docs (u :: rest)) w =
  crawl_loop fuel recursive translate_to base (mkLoop vis docs rest) w.
Proof.
  intros Hs; simpl; unfold crawl_body; simpl.
  destruct (mem u vis || ignored u) eqn:Hb; [reflexivity|].
  destruct Hs as [Hs|[n [Hn Hne]]]; [discriminate|].
  rewrite Hn; monad_simpl; destruct (String.eqb_spec n base); [contradiction|reflexivity].
Qed.

Lemma crawl_loop_step_visit (fuel : nat) (recursive : bool)
  (translate_to : option string) (base : string) (vis : list string)
  (docs : list Document) (u : string) (rest : list string) (w : world) :
  mem u vis = false -> ignored u = false -> urlparse_netloc u = Some base ->
  crawl_loop (S fuel) recursive translate_to base (mkLoop vis docs (u :: rest)) w =
  bind (process_url u translate_to)
    (fun doc =>
       bind (if recursive then harvest_links u (u :: vis) rest else ret rest)
         (fun q => crawl_loop fuel recursive translate_to base
                     (mkLoop (u :: vis)
                        (match doc with Some d => docs ++ [d] | None => docs end) q)))
    w.
Proof.
  intros Hm Hi Hn; simpl; unfold crawl_body; simpl.
  rewrite Hm, Hi; simpl; rewrite Hn; monad_simpl; rewrite String.eqb_refl.
  reflexivity.
Qed.

(** Over a finite URL domain [D] closed under the links of its pages, the
    loop needs finitely many iterations: the pair (URLs of [D] not yet
    visited, queue length) decreases lexicographically. *)
Lemma crawl_loop_terminates (recursive : bool) (translate_to : option string)
  (base : string) (D : list string) :
  (forall u h a, In u D -> In h (page_hrefs u) -> urljoin u h = Some a -> In a D) ->
  forall n st w,
    length D - length (visited st) <= n ->
    NoDup (visited st) -> incl (visited st) D -> incl (queue st) D ->
    exists fuel, snd (crawl_loop fuel recursive translate_to base st w) <> OutOfFuel.
Proof.
  intros Hclosed n; induction n as [n IHn] using lt_wf_ind.
  assert (Hm : forall m st w, length (queue st) <= m ->
            length D - length (visited st) <= n ->
            NoDup (visited st) -> incl (visited st) D -> incl (queue st) D ->
            exists fuel, snd (crawl_loop fuel recursive translate_to base st w) <> OutOfFuel).
  2:{ intros st w; apply (Hm (length (queue st))); lia. }
  induction m as [|m IHm]; intros [vis docs q] w Hle Hmeas Hnd Hvis Hq; simpl in *.
  - destruct q; [exists 0; simpl; discriminate | simpl in Hle; lia].
  - destruct q as [|u rest]; [exists 0; simpl; discriminate|].
    simpl in Hle.
    assert (Hrest : incl rest D) by (intros x Hx; apply Hq; right; exact Hx).
    assert (Hskip : (mem u vis || ignored u = true \/
                     exists n', urlparse_netloc u = Some n' /\ n' <> base) ->
                    exists fuel, snd (crawl_loop fuel recursive translate_to base
                                        (mkLoop vis docs (u :: rest)) w) <> OutOfFuel).
    { intros Hs; destruct (IHm (mkLoop vis docs rest) w) as [f Hf]; simpl; auto; [lia|].
      exists (S f); rewrite crawl_loop_step_skip; auto. }
    destruct (mem u vis || ignored u) eqn:Hb; [apply Hskip; left; reflexivity|].
    apply orb_false_iff in Hb as [Hfresh Hign].
    destruct (urlparse_netloc u) as [n'|] eqn:Hn.
    2:{ exists 1; simpl; unfold crawl_body; simpl; rewrite Hfresh, Hign, Hn.
        simpl; discriminate. }
    destruct (String.eqb_spec n' base) as [->|Hne];
      [|apply Hskip; right; exists n'; auto].
    assert (HuD : In u D) by (apply Hq; left; reflexivity).
    assert (Hnd' : NoDup (u :: vis)) by (constructor; [apply mem_false|]; auto).
    assert (Hvis' : incl (u :: vis) D) by (intros x [<-|Hx]; auto).
    assert (Hlt : length D - length (u :: vis) < n).
    { pose proof (NoDup_incl_length Hnd' Hvis'); simpl in *; lia. }
    destruct (process_url_spec u translate_to w) as [c [od [Hp _]]].
    set (docs' := match od with Some d => docs ++ [d] | None => docs end).
    destruct recursive.
    + destruct (harvest_links_spec u (u :: vis) rest
                  (mkWorld c (Get ContentGet u :: trace w))) as [hr [Hh Hcases]].
      destruct Hcases as [Herr | [l [Hok Hl]]]; subst hr.
      * exists 1; rewrite crawl_loop_step_visit by auto; monad_simpl.
        rewrite Hp; simpl; rewrite Hh; simpl; discriminate.
      * assert (HqD : incl (rest ++ l) D).
        { intros x Hx; apply in_app_or in Hx as [Hx|Hx]; auto.
          apply Hl in Hx as [_ [h [Hh' Hj]]]; exact (Hclosed u h x HuD Hh' Hj). }
        destruct (IHn _ Hlt (mkLoop (u :: vis) docs' (rest ++ l))
                    (mkWorld c (Get LinksGet u :: Get ContentGet u :: trace w)))
          as [f Hf]; simpl; auto.
        exists (S f); rewrite crawl_loop_step_visit by auto; monad_simpl.
        rewrite Hp; simpl; rewrite Hh; simpl; exact Hf.
    + destruct (IHn _ Hlt (mkLoop (u :: vis) docs' rest)
                  (mkWorld c (Get ContentGet u :: trace w))) as [f Hf]; simpl; auto.
      exists (S f); rewrite crawl_loop_step_visit by auto; monad_simpl.
      rewrite Hp; simpl; exact Hf.
Qed.

(** C4 (amended): over a finite URL domain [D] that holds the seeds and is
    closed under the links of its pages, [crawl_and_scrape] terminates
    (it returns or raises, for enough fuel, and the loop only returns once
    its queue is empty); when it returns, the number of Documents equals
    the number of distinct in-scope URLs reachable from the seeds whose
    page fetch succeeds. *)
Theorem crawl_terminates_and_counts (D : list string) (first : string)
  (rest : list string) (base : string) (recursive : bool)
  (translate_to : option string) (w : world) :
  incl (first :: rest) D ->
  (forall u h a, In u D -> In h (page_hrefs u) -> urljoin u h = Some a -> In a D) ->
  urlparse_netloc first = Some base ->
  (exists fuel,
     snd (crawl_and_scrape fuel (first :: rest) recursive translate_to w) <> OutOfFuel) /\
  (forall fuel w' docs L,
     crawl_and_scrape fuel (first :: rest) recursive translate_to w = (w', Ok docs) ->
     NoDup L ->
     (forall x, In x L <-> reachable recursive base (first :: rest) x /\ fetch_ok x = true) ->
     length docs = length L).
Proof.
  intros Hseeds Hclosed Hb; split.
  - destruct (crawl_loop_terminates recursive translate_to base D Hclosed (length D)
                (mkLoop [] [] (first :: rest)) w) as [f Hf]; simpl; auto using NoDup_nil.
    + lia.
    + intros x [].
    + exists f; unfold crawl_and_scrape; rewrite Hb; monad_simpl.
      destruct (crawl_loop f recursive translate_to base (mkLoop [] [] (first :: rest)) w)
        as [w1 [st| |]]; simpl in *; try discriminate; contradiction.
  - intros fuel w' docs L Hrun HL HLiff.
    unfold crawl_and_scrape in Hrun; rewrite Hb in Hrun; monad_simpl.
    destruct (crawl_loop fuel recursive translate_to base (mkLoop [] [] (first :: rest)) w)
      as [w1 [st| |]] eqn:Hloop; try discriminate.
    injection Hrun as <- <-.
    destruct (crawl_loop_inv recursive translate_to base fuel
                (mkLoop [] [] (first :: rest)) w (trace w) w1 (Ok st)
                eq_refl (NoDup_nil _) (Forall_nil _) eq_refl Hloop)
      as [vis [_ [Hnd [_ [_ Hfin]]]]].
    destruct (Hfin st eq_refl) as [Hvis [Hdocs _]].
    assert (Hreach := crawl_loop_complete recursive translate_to base (first :: rest)
                        fuel (mkLoop [] [] (first :: rest)) w w1 st).
    simpl in Hreach.
    assert (Hreach' : forall x, reachable recursive base (first :: rest) x <-> In x vis).
    { intros x; rewrite <- Hvis; apply Hreach; auto.
      - intros y [Hy|[v [h [[] _]]]]; auto.
      - intros y []. }
    rewrite <- (length_map doc_url), Hdocs.
    apply Permutation_length, NoDup_Permutation.
    + apply NoDup_filter, NoDup_rev; exact Hnd.
    + exact HL.
    + intros x; rewrite filter_In, <- in_rev, HLiff, Hreach'; reflexivity.
Qed.


(* ------------------------------------------------------------------ *)
(** ** The Chroma database: lookups after each operation *)

Lemma lookup_collection_none {A} (n : string) (db : chroma A) :
  lookup_collection n db = None <-> ~ In n (collection_names db).
Proof using.
  induction db as [|[m c] db IH]; simpl; [split; [intros _ []|reflexivity]|].
  destruct (String.eqb_spec m n) as [->|Hmn].
  - split; [discriminate|intros H; exfalso; apply H; left; reflexivity].
  - rewrite IH; split; intros H H';
      [destruct H' as [->|H']; [congruence|exact (H H')]|].
    apply H; right; exact H'.
Qed.

Lemma lookup_collection_app {A} (k n : string) (c : list A) (db : chroma A) :
  lookup_collection k (db ++ [(n, c)]) =
  match lookup_collection k db with
  | Some x => Some x
  | None => if String.eqb n k then Some c else None
  end.
Proof using.
  induction db as [|[m c'] db IH]; simpl; [reflexivity|].
  destruct (String.eqb m k); [reflexivity|exact IH].
Qed.

Lemma delete_collection_none {A} (n : string) (db : chroma A) :
  delete_collection n db = None <-> ~ In n (collection_names db).
Proof using.
  induction db as [|[m c] db IH]; simpl; [split; [intros _ []|reflexivity]|].
  destruct (String.eqb_spec m n) as [->|Hmn].
  - split; [discriminate|intros H; exfalso; apply H; left; reflexivity].
  - destruct (delete_collection n db) as [d|]; split.
    + discriminate.
    + intros H; exfalso; apply H; right.
      destruct (in_dec String.string_dec n (collection_names db)) as [Hi|Hi];
        [exact Hi|apply IH in Hi; discriminate].
    + intros _ [H|H]; [congruence|]; revert H; apply IH; reflexivity.
    + reflexivity.
Qed.

Lemma delete_collection_lookup {A} (n k : string) (db db' : chroma A) :
  NoDup (collection_names db) -> delete_collection n db = Some db' ->
  lookup_collection k db' = if String.eqb k n then None else lookup_collection k db.
Proof using.
  revert db'; induction db as [|[m c] db IH]; intros db' Hnd Hdel; simpl in *;
    [discriminate|].
  inversion Hnd as [|? ? Hm Hnd']; subst.
  destruct (String.eqb_spec m n) as [->|Hmn].
  - injection Hdel as <-.
    destruct (String.eqb_spec k n) as [->|Hkn].
    + apply lookup_collection_none; exact Hm.
    + destruct (String.eqb_spec n k); [congruence|reflexivity].
  - destruct (delete_collection n db) as [d|] eqn:E; [|discriminate].
    injection Hdel as <-; simpl; rewrite (IH d Hnd' eq_refl).
    destruct (String.eqb_spec m k) as [->|Hmk], (String.eqb_spec k n); congruence.
Qed.

Lemma get_or_create_lookup {A} (valid : string -> bool) (n k : string)
  (db db2 : chroma A) :
  get_or_create_collection valid n db = Some db2 ->
  lookup_collection k db2 =
  if String.eqb k n
  then Some (match lookup_collection n db with Some c => c | None => [] end)
  else lookup_collection k db.
Proof using.
  unfold get_or_create_collection; destruct (valid n); [|discriminate].
  intros H; injection H as <-.
  destruct (mem n (collection_names db)) eqn:Hm.
  - apply mem_spec in Hm.
    destruct (String.eqb_spec k n) as [->|]; [|reflexivity].
    destruct (lookup_collection n db) eqn:E; [reflexivity|].
    apply lookup_collection_none in E; contradiction.
  - apply mem_false, lookup_collection_none in Hm.
    rewrite lookup_collection_app.
    destruct (String.eqb_spec k n) as [->|Hkn].
    + rewrite Hm, String.eqb_refl; reflexivity.
    + destruct (lookup_collection k db); [reflexivity|].
      destruct (String.eqb_spec n k); congruence.
Qed.

Lemma add_to_collection_lookup {A} (n k : string) (es : list A) (db : chroma A) :
  lookup_collection k (add_to_collection n es db) =
  if String.eqb k n
  then option_map (fun c => (c ++ es)%list) (lookup_collection n db)
  else lookup_collection k db.
Proof using.
  induction db as [|[m c] db IH]; simpl.
  - destruct (String.eqb k n); reflexivity.
  - destruct (String.eqb_spec m n) as [->|Hmn]; simpl.
    + destruct (String.eqb_spec n k) as [->|Hnk];
        [rewrite String.eqb_refl; reflexivity|].
      destruct (String.eqb_spec k n); congruence.
    + rewrite IH; destruct (String.eqb_spec m k) as [->|Hmk];
        destruct (String.eqb_spec k n); congruence.
Qed.

(** What the index builders do after their deletion step: create the
    collection [n] if needed, then raise at the embedding set-up, or
    write what [from_documents] writes and return or raise as it does. *)
Lemma create_and_fill_spec (n : string) (documents : list Document)
  (db1 db' : chroma node) (o : outcome) :
  valid_collection_name n = true ->
  match get_or_create_collection valid_collection_name n db1 with
  | None => (db1, Raised)
  | Some db2 =>
      if embed_setup_ok then
        let '(written, returned) := from_documents documents in
        (add_to_collection n written db2, if returned then Returned else Raised)
      else (db2, Raised)
  end = (db', o) ->
  o = (if embed_setup_ok && snd (from_documents documents) then Returned else Raised) /\
  forall k, lookup_collection k db' =
    if String.eqb k n
    then Some ((match lookup_collection n db1 with Some c => c | None => [] end) ++
               (if embed_setup_ok then fst (from_documents documents) else []))%list
    else lookup_collection k db1.
Proof using valid_collection_name embed_setup_ok node from_documents.
  intros Hv Hrun.
  destruct (get_or_create_collection valid_collection_name n db1) as [db2|] eqn:Hg.
  2:{ unfold get_or_create_collection in Hg; rewrite Hv in Hg; discriminate. }
  destruct embed_setup_ok; simpl.
  - destruct (from_documents documents) as [written returned]; simpl.
    injection Hrun as <- <-; split; [reflexivity|].
    intros k; rewrite add_to_collection_lookup, !(get_or_create_lookup _ _ _ _ _ Hg),
      String.eqb_refl.
    destruct (String.eqb k n); reflexivity.
  - injection Hrun as <- <-; split; [reflexivity|].
    intros k; rewrite (get_or_create_lookup _ _ _ _ _ Hg), app_nil_r; reflexivity.
Qed.

(* ------------------------------------------------------------------ *)
(** ** Further properties of the crawler, its callers and the index builders *)

(** [fetch_sitemap_urls(base_url)] raises only when [urljoin] does, and
    then before any request.  Otherwise it issues exactly one request, for
    the sitemap URL, never raises, leaves the translation client alone,
    and returns the texts of the sitemap's [<url><loc>] elements in
    document order when the fetch succeeds with a status below 400 (or
    from 600 on) and the body parses as XML, and [[]] in every other
    case. *)
Theorem fetch_sitemap_urls_outcome (base_url : string) (w : world) :
  (urljoin base_url "sitemap.xml" = None ->
   fetch_sitemap_urls base_url w = (w, Err ValueError)) /\
  (forall sitemap_url, urljoin base_url "sitemap.xml" = Some sitemap_url ->
   fetch_sitemap_urls base_url w =
     (mkWorld (client_ready w) (Get SitemapGet sitemap_url :: trace w),
      Ok (match http_get sitemap_url with
          | Some r =>
              if http_error_status r then []
              else match xml_locs (content r) with Some l => l | None => [] end
          | None => []
          end))).
Proof.
  unfold fetch_sitemap_urls, requests_get, raise_for_status; split.
  - intros H; rewrite H; reflexivity.
  - intros s H; rewrite H; monad_simpl.
    destruct (http_get s) as [r|]; simpl; [|reflexivity].
    destruct (http_error_status r); simpl; [reflexivity|].
    destruct (xml_locs (content r)) as [[|x l]|]; reflexivity.
Qed.

(** [translate_text] makes no [requests.get] call (its own traffic goes
    through the translation client, which the trace does not record), and
    afterwards the global client is set exactly when it was set before or
    the [translate.Client()] of this call succeeded: a client once created
    is kept, and a failed creation leaves it [None]. *)
Theorem translate_text_client_state (text target_language : string) (w : world) :
  fst (translate_text text target_language w) =
    mkWorld (client_ready w || translate_client_init_ok) (trace w).
Proof.
  destruct w as [ready t]; unfold translate_text, translate_call; monad_simpl.
  destruct ready, translate_client_init_ok, (translate_api text target_language);
    reflexivity.
Qed.

(** With no target language, or an empty one (falsy in Python),
    [process_url] does not touch the translation client: it issues one
    request for the URL and returns a Document with the extracted page
    text when the fetch succeeds with a status outside 400..599, and
    [None] otherwise. *)
Theorem process_url_without_translation (url : string)
  (translate_to : option string) (w : world) :
  truthy translate_to = false ->
  process_url url translate_to w =
    (mkWorld (client_ready w) (Get ContentGet url :: trace w),
     Ok (match http_get url with
         | Some r =>
             if http_error_status r then None
             else Some (mkDocument (soup_text (content r)) url)
         | None => None
         end)).
Proof.
  intros Ht; unfold process_url, requests_get, raise_for_status; monad_simpl.
  destruct (http_get url) as [r|]; simpl; [|reflexivity].
  destruct (http_error_status r); simpl; [reflexivity|].
  destruct translate_to as [lang|]; simpl in *; [rewrite Ht|]; reflexivity.
Qed.

Lemma crawl_loop_nonrecursive_fuel (translate_to : option string) (base : string)
  (fuel : nat) :
  forall st w, length (queue st) <= fuel ->
  snd (crawl_loop fuel false translate_to base st w) <> OutOfFuel.
Proof.
  induction fuel as [|fuel IH]; intros [vis docs q] w Hlen; simpl in *.
  - destruct q; simpl in Hlen; [monad_simpl; discriminate|lia].
  - destruct q as [|u rest]; [monad_simpl; discriminate|].
    simpl in Hlen; unfold crawl_body; simpl.
    destruct (mem u vis || ignored u).
    { apply (IH (mkLoop vis docs rest)); simpl; lia. }
    destruct (urlparse_netloc u) as [n|]; monad_simpl; [|discriminate].
    destruct (String.eqb n base); simpl.
    2:{ apply (IH (mkLoop vis docs rest)); simpl; lia. }
    destruct (process_url_spec u translate_to w) as [c [od [Hp _]]].
    rewrite Hp; simpl.
    apply (IH (mkLoop _ _ rest)); simpl; lia.
Qed.

(** Without [recursive], [crawl_and_scrape] never needs more iterations
    than it has URLs: given that many, it returns or raises, and every
    request it issues is a content fetch of one of the given URLs. *)
Theorem crawl_and_scrape_nonrecursive_bounded (fuel : nat) (urls : list string)
  (translate_to : option string) (w w' : world) (r : res (list Document)) :
  length urls <= fuel ->
  crawl_and_scrape fuel urls false translate_to w = (w', r) ->
  r <> OutOfFuel /\
  exists new, trace w' = new ++ trace w /\
    forall e, In e new -> ev_site e = ContentGet /\ In (ev_url e) urls.
Proof.
  intros Hlen Hrun; destruct urls as [|first rest]; unfold crawl_and_scrape in Hrun;
    monad_simpl.
  { injection Hrun as <- <-; split; [discriminate|exists []; split; auto; intros e []]. }
  destruct (urlparse_netloc first) as [base|]; monad_simpl.
  2:{ injection Hrun as <- <-; split; [discriminate|exists []; split; auto; intros e []]. }
  pose proof (crawl_loop_nonrecursive_fuel translate_to base fuel
                (mkLoop [] [] (first :: rest)) w Hlen) as Hn.
  destruct (crawl_loop fuel false translate_to base (mkLoop [] [] (first :: rest)) w)
    as [w1 r1] eqn:Hloop.
  destruct (crawl_loop_nonrecursive_within translate_to base (first :: rest) fuel
              (mkLoop [] [] (first :: rest)) _ _ _ (incl_refl _) Hloop)
    as [new [Htr Hnew]].
  destruct r1 as [st| |]; simpl in Hn; [| |contradiction];
    injection Hrun as <- <-; (split; [discriminate|exists new; auto]).
Qed.

Lemma crawl_loop_nonrecursive_docs (translate_to : option string) (base : string)
  (fuel : nat) :
  forall vis docs q w w' st',
    NoDup q -> Forall (in_scope base) q -> (forall u, In u q -> ~ In u vis) ->
    crawl_loop fuel false translate_to base (mkLoop vis docs q) w = (w', Ok st') ->
    map doc_url (documents st') = (map doc_url docs ++ filter fetch_ok q)%list.
Proof.
  induction fuel as [|fuel IH]; intros vis docs q w w' st' Hnd Hsc Hdis Hrun;
    simpl in Hrun.
  - destruct q; monad_simpl; [|discriminate].
    injection Hrun as _ <-; simpl; rewrite app_nil_r; reflexivity.
  - destruct q as [|u rest]; monad_simpl.
    { injection Hrun as _ <-; simpl; rewrite app_nil_r; reflexivity. }
    inversion Hnd as [|? ? Hu Hnd']; subst.
    inversion Hsc as [|? ? [Hign Hn] Hsc']; subst.
    assert (Hm : mem u vis = false) by (apply mem_false, Hdis; left; reflexivity).
    unfold crawl_body in Hrun; simpl in Hrun.
    rewrite Hm, Hign, Hn in Hrun; monad_simpl; rewrite String.eqb_refl in Hrun;
      simpl in Hrun.
    destruct (process_url_spec u translate_to w) as [c [od [Hp Hod]]].
    rewrite Hp in Hrun; simpl in Hrun.
    assert (Hdis' : forall x, In x rest -> ~ In x (u :: vis)).
    { intros x Hx [->|Hx']; [contradiction|]; exact (Hdis x (or_intror Hx) Hx'). }
    rewrite (IH _ _ rest _ _ _ Hnd' Hsc' Hdis' Hrun).
    destruct od as [d|]; simpl.
    + destruct Hod as [Hok Hd]; rewrite Hok, map_app; simpl; rewrite Hd, <- app_assoc; reflexivity.
    + rewrite Hod; reflexivity.
Qed.

(** Without [recursive], when the given URLs are distinct and all pass the
    dequeue-time filter for the first URL's host, the Documents returned
    are, in order, those of the given URLs whose fetch succeeds. *)
Theorem crawl_and_scrape_nonrecursive_documents (fuel : nat) (first : string)
  (rest : list string) (translate_to : option string) (w w' : world)
  (docs : list Document) :
  NoDup (first :: rest) ->
  (forall u, In u (first :: rest) ->
     ignored u = false /\ urlparse_netloc u = urlparse_netloc first) ->
  crawl_and_scrape fuel (first :: rest) false translate_to w = (w', Ok docs) ->
  map doc_url docs = filter fetch_ok (first :: rest).
Proof.
  intros Hnd Hsc Hrun; unfold crawl_and_scrape in Hrun; monad_simpl.
  destruct (urlparse_netloc first) as [base|] eqn:Hb; monad_simpl; [|discriminate].
  destruct (crawl_loop fuel false translate_to base (mkLoop [] [] (first :: rest)) w)
    as [w1 [st| |]] eqn:Hloop; monad_simpl; try discriminate.
  injection Hrun as _ <-.
  refine (crawl_loop_nonrecursive_docs translate_to base fuel [] [] _ w w1 st Hnd _
            _ Hloop).
  - apply Forall_forall; intros u Hu; destruct (Hsc u Hu) as [Hi Hn].
    split; [exact Hi|exact Hn].
  - intros u _ [].
Qed.

(** No Document that [crawl_and_scrape] returns has a URL containing one of
    [IGNORE_PATTERNS]; in particular none has a query (["?"]) or a
    fragment (["#"]). *)
Theorem crawl_and_scrape_documents_not_ignored (fuel : nat) (urls : list string)
  (recursive : bool) (translate_to : option string) (w w' : world)
  (docs : list Document) :
  crawl_and_scrape fuel urls recursive translate_to w = (w', Ok docs) ->
  forall d, In d docs -> forall pattern, In pattern IGNORE_PATTERNS ->
    contains pattern (doc_url d) = false.
Proof.
  destruct urls as [|first rest]; intros Hrun.
  { unfold crawl_and_scrape in Hrun; monad_simpl; discriminate. }
  destruct (crawl_and_scrape_inv fuel first rest recursive translate_to w w' _ Hrun)
    as [vis [_ [_ [Hsc Hdocs]]]].
  intros d Hd p Hp.
  assert (Hin : In (doc_url d) vis).
  { apply (in_map doc_url) in Hd; rewrite (Hdocs docs eq_refl) in Hd.
    apply filter_In in Hd as [Hd _]; apply in_rev; exact Hd. }
  destruct (Hsc _ Hin) as [Hi _]; unfold ignored in Hi.
  destruct (contains p (doc_url d)) eqn:Hc; [|reflexivity].
  assert (Hex : existsb (fun pattern => contains pattern (doc_url d)) IGNORE_PATTERNS = true)
    by (apply existsb_exists; eauto).
  congruence.
Qed.

(** Without URLs, [load_documents_from_sources] issues no HTTP request.
    It returns [[]] when no PDF path is given; otherwise it returns the
    Documents the reader gives for the first PDF path, or raises what the
    reader raises. *)
Theorem load_documents_without_urls (fuel : nat) (a : args) (w : world) :
  args_urls a = [] ->
  load_documents_from_sources fuel a w =
    (w, match args_pdfs a with
        | [] => Ok []
        | first_pdf :: _ =>
            match pdf_load_data first_pdf with
            | Some ds => Ok ds
            | None => Err LoaderError
            end
        end).
Proof.
  intros H; unfold load_documents_from_sources; rewrite H; monad_simpl.
  destruct (args_pdfs a) as [|p ps]; [reflexivity|].
  destruct (pdf_load_data p); reflexivity.
Qed.

(** [load_documents_from_sources] reads only the first PDF path: the PDF
    paths after it change nothing in its requests or its result. *)
Theorem load_documents_first_pdf_only (fuel : nat) (urls : list string)
  (first_pdf : string) (more_pdfs : list string) (recursive : bool)
  (translate_to : option string) (w : world) :
  load_documents_from_sources fuel (mkArgs urls (first_pdf :: more_pdfs) recursive translate_to) w =
  load_documents_from_sources fuel (mkArgs urls [first_pdf] recursive translate_to) w.
Proof.
  unfold load_documents_from_sources; simpl.
  destruct urls as [|u us]; monad_simpl; [reflexivity|].
  destruct (fetch_sitemap_urls u w) as [w1 [sm| |]]; [|reflexivity|reflexivity].
  destruct (crawl_and_scrape fuel _ recursive translate_to w1) as [w2 [d| |]];
    reflexivity.
Qed.

(** Without [--recursive], when the sitemap of the first URL lists URLs,
    [load_documents_from_sources] requests, after the sitemap, only the
    content of URLs the sitemap lists: the other command-line URLs are
    never fetched. *)
Theorem load_documents_sitemap_nonrecursive (fuel : nat) (a : args)
  (first : string) (rest : list string) (w w1 w' : world) (sm : list string)
  (r : res (list Document)) :
  args_urls a = first :: rest -> args_recursive a = false ->
  fetch_sitemap_urls first w = (w1, Ok sm) -> sm <> [] ->
  load_documents_from_sources fuel a w = (w', r) ->
  exists new, trace w' = new ++ trace w1 /\
    forall e, In e new -> ev_site e = ContentGet /\ In (ev_url e) sm.
Proof.
  intros Hu Hr Hf Hne Hrun; unfold load_documents_from_sources in Hrun.
  rewrite Hu, Hr in Hrun; monad_simpl; rewrite Hf in Hrun; simpl in Hrun.
  destruct sm as [|s ss]; [contradiction|]; simpl in Hrun.
  unfold crawl_and_scrape in Hrun; monad_simpl.
  destruct (urlparse_netloc s) as [base|]; monad_simpl.
  - destruct (crawl_loop fuel false (args_translate_to a) base (mkLoop [] [] (s :: ss)) w1)
      as [w2 r2] eqn:Hloop.
    destruct (crawl_loop_nonrecursive_within (args_translate_to a) base (s :: ss) fuel
                (mkLoop [] [] (s :: ss)) _ _ _ (incl_refl _) Hloop)
      as [new [Htr Hnew]].
    exists new; split; auto.
    destruct r2; monad_simpl;
      [destruct (args_pdfs a) as [|p ps]; [|destruct (pdf_load_data p)]; monad_simpl|..];
      injection Hrun as <- _; exact Htr.
  - injection Hrun as <- _; exists []; split; auto; intros e [].
Qed.

(** [load_api_reference_documents] never raises: when the sitemap
    discovery raises, or the crawl it then runs raises, the exception is
    caught and the function returns [[]], with the requests made until
    then. *)
Theorem load_api_reference_never_raises (fuel : nat) (url : string) (w : world) :
  (forall e, snd (load_api_reference_documents fuel url w) <> Err e) /\
  (forall w1 e, fetch_sitemap_urls url w = (w1, Err e) ->
   load_api_reference_documents fuel url w = (w1, Ok [])) /\
  (forall w1 w2 e, fetch_sitemap_urls url w = (w1, Ok []) ->
   crawl_and_scrape fuel [url] true None w1 = (w2, Err e) ->
   load_api_reference_documents fuel url w = (w2, Ok [])) /\
  (forall w1 w2 e s ss, fetch_sitemap_urls url w = (w1, Ok (s :: ss)) ->
   crawl_and_scrape fuel (s :: ss) false None w1 = (w2, Err e) ->
   load_api_reference_documents fuel url w = (w2, Ok [])).
Proof.
  unfold load_api_reference_documents, try_except; split_and.
  - intros e; match goal with |- context [match ?x with _ => _ end] =>
      destruct x as [w1 [a|e'|]] end; simpl; discriminate.
  - intros w1 e Hf; monad_simpl; rewrite Hf; reflexivity.
  - intros w1 w2 e Hf Hc; monad_simpl; rewrite Hf; simpl; rewrite Hc; reflexivity.
  - intros w1 w2 e s ss Hf Hc; monad_simpl; rewrite Hf; simpl; rewrite Hc; reflexivity.
Qed.

(** [load_confluence_documents] never raises: it returns [[]] without
    calling the reader when [CONFLUENCE_USERNAME] or [CONFLUENCE_API_KEY]
    is unset or empty, and [[]] when the reader raises. *)
Theorem load_confluence_documents_fallbacks (base_url space_key : string) :
  (truthy (getenv "CONFLUENCE_USERNAME") = false \/
   truthy (getenv "CONFLUENCE_API_KEY") = false ->
   load_confluence_documents base_url space_key = []) /\
  (forall u k, getenv "CONFLUENCE_USERNAME" = Some u ->
   getenv "CONFLUENCE_API_KEY" = Some k ->
   confluence_load base_url u k space_key = None ->
   load_confluence_documents base_url space_key = []).
Proof.
  unfold load_confluence_documents; split.
  - destruct (getenv "CONFLUENCE_USERNAME") as [u|], (getenv "CONFLUENCE_API_KEY") as [k|];
      simpl; try reflexivity.
    intros [H|H]; apply negb_false_iff in H; rewrite H; [|rewrite orb_true_r]; reflexivity.
  - intros u k Hu Hk Hl; rewrite Hu, Hk, Hl.
    destruct (String.eqb u "" || String.eqb k ""); reflexivity.
Qed.

(** [build_core_index] on Documents: the collection [core_knowledge] is
    replaced, not appended to.  When the database opens, lists collection
    objects and accepts the name [core_knowledge], the collection ends up
    holding only what the new index writes (even when [from_documents]
    raises part-way), or nothing at all when the embedding set-up raises
    (the old collection has been deleted by then); the function returns
    only when both succeed, and every other collection is left as it
    was. *)
Theorem build_core_index_replaces (documents : list Document) (db db' : chroma node)
  (o : outcome) :
  NoDup (collection_names db) -> documents <> [] ->
  chroma_open_ok = true -> collections_have_name = true ->
  valid_collection_name "core_knowledge" = true ->
  build_core_index documents db = (db', o) ->
  o = (if embed_setup_ok && snd (from_documents documents) then Returned else Raised) /\
  lookup_collection "core_knowledge" db' =
    Some (if embed_setup_ok then fst (from_documents documents) else []) /\
  forall n, n <> "core_knowledge" -> lookup_collection n db' = lookup_collection n db.
Proof using chroma_open_ok collections_have_name valid_collection_name embed_setup_ok
  node from_documents.
  intros Hnd Hne Hopen Hnames Hv Hrun; unfold build_core_index in Hrun.
  destruct documents as [|d ds]; [contradiction|].
  rewrite Hopen in Hrun; unfold existing_collection_names in Hrun; rewrite Hnames in Hrun;
    simpl in Hrun.
  assert (Hdb1 : exists db1,
    (if mem "core_knowledge" (collection_names db)
     then delete_collection "core_knowledge" db else Some db) = Some db1 /\
    lookup_collection "core_knowledge" db1 = None /\
    forall n, n <> "core_knowledge" -> lookup_collection n db1 = lookup_collection n db).
  { destruct (mem "core_knowledge" (collection_names db)) eqn:Hm.
    - apply mem_spec in Hm.
      destruct (delete_collection "core_knowledge" db) as [db1|] eqn:Hd.
      + exists db1; split_and; [reflexivity| |].
        * rewrite (delete_collection_lookup _ _ _ _ Hnd Hd); reflexivity.
        * intros n Hn; rewrite (delete_collection_lookup _ _ _ _ Hnd Hd).
          destruct (String.eqb_spec n "core_knowledge"); [contradiction|reflexivity].
      + apply delete_collection_none in Hd; contradiction.
    - apply mem_false, lookup_collection_none in Hm.
      exists db; split_and; auto. }
  destruct Hdb1 as [db1 [Hd [Hc Ho]]]; rewrite Hd in Hrun.
  destruct (create_and_fill_spec _ _ _ _ _ Hv Hrun) as [Hout Hl].
  split_and.
  - exact Hout.
  - rewrite Hl, String.eqb_refl, Hc; reflexivity.
  - intros n Hn; rewrite Hl, <- (Ho n Hn).
    destruct (String.eqb_spec n "core_knowledge"); [contradiction|reflexivity].
Qed.

(** [build_and_save_index] without [--overwrite] appends.  When the
    database opens: if chromadb refuses the name [<name.lower()>_docs],
    [get_or_create_collection] raises and nothing changes; otherwise that
    collection keeps what it held (it is created empty when missing) and
    gets what the new index writes, the function returns only when the
    embedding set-up and [from_documents] succeed, and every other
    collection is left as it was. *)
Theorem build_and_save_index_appends (name : string) (documents : list Document)
  (db db' : chroma node) (o : outcome) :
  chroma_open_ok = true ->
  build_and_save_index name documents false db = (db', o) ->
  (valid_collection_name (py_lower name ++ "_docs") = false -> db' = db /\ o = Raised) /\
  (valid_collection_name (py_lower name ++ "_docs") = true ->
   o = (if embed_setup_ok && snd (from_documents documents) then Returned else Raised) /\
   lookup_collection (py_lower name ++ "_docs") db' =
     Some ((match lookup_collection (py_lower name ++ "_docs") db with
            | Some c => c | None => [] end) ++
           (if embed_setup_ok then fst (from_documents documents) else []))%list /\
   forall n, n <> (py_lower name ++ "_docs")%string ->
     lookup_collection n db' = lookup_collection n db).
Proof using chroma_open_ok valid_collection_name embed_setup_ok node from_documents
  py_lower.
  intros Hopen Hrun; unfold build_and_save_index in Hrun; rewrite Hopen in Hrun;
    simpl in Hrun.
  set (cn := (py_lower name ++ "_docs")%string) in *.
  split; intros Hv.
  - unfold get_or_create_collection in Hrun; rewrite Hv in Hrun.
    injection Hrun as <- <-; split; reflexivity.
  - destruct (create_and_fill_spec _ _ _ _ _ Hv Hrun) as [Hout Hl].
    split_and.
    + exact Hout.
    + rewrite Hl, String.eqb_refl; reflexivity.
    + intros n Hn; rewrite Hl; destruct (String.eqb_spec n cn); [contradiction|reflexivity].
Qed.

(** [build_and_save_index] with [--overwrite], when the database opens:
    if the collection [<name.lower()>_docs] does not exist,
    [delete_collection] raises and nothing changes; if it exists (and
    chromadb accepts its name), it is replaced by what the new index
    writes (by nothing when the embedding set-up raises), the function
    returns only when the embedding set-up and [from_documents] succeed,
    and every other collection is left as it was. *)
Theorem build_and_save_index_overwrite (name : string) (documents : list Document)
  (db db' : chroma node) (o : outcome) :
  NoDup (collection_names db) -> chroma_open_ok = true ->
  build_and_save_index name documents true db = (db', o) ->
  (lookup_collection (py_lower name ++ "_docs") db = None -> db' = db /\ o = Raised) /\
  (lookup_collection (py_lower name ++ "_docs") db <> None ->
   valid_collection_name (py_lower name ++ "_docs") = true ->
   o = (if embed_setup_ok && snd (from_documents documents) then Returned else Raised) /\
   lookup_collection (py_lower name ++ "_docs") db' =
     Some (if embed_setup_ok then fst (from_documents documents) else []) /\
   forall n, n <> (py_lower name ++ "_docs")%string ->
     lookup_collection n db' = lookup_collection n db).
Proof using chroma_open_ok valid_collection_name embed_setup_ok node from_documents
  py_lower.
  intros Hnd Hopen Hrun; unfold build_and_save_index in Hrun; rewrite Hopen in Hrun;
    simpl in Hrun.
  set (cn := (py_lower name ++ "_docs")%string) in *.
  split.
  - intros Hex; apply lookup_collection_none, delete_collection_none in Hex.
    rewrite Hex in Hrun; injection Hrun as <- <-; split; reflexivity.
  - intros Hex Hv.
    destruct (delete_collection cn db) as [db1|] eqn:Hd.
    2:{ apply delete_collection_none, lookup_collection_none in Hd; contradiction. }
    destruct (create_and_fill_spec _ _ _ _ _ Hv Hrun) as [Hout Hl].
    split_and.
    + exact Hout.
    + rewrite Hl, String.eqb_refl, (delete_collection_lookup _ _ _ _ Hnd Hd),
        String.eqb_refl; reflexivity.
    + intros n Hn; rewrite Hl, (delete_collection_lookup cn n db db1 Hnd Hd).
      destruct (String.eqb_spec n cn); [contradiction|reflexivity].
Qed.

End Crawler.

(* ------------------------------------------------------------------ *)
(** ** Runs on the example site *)

Local Abbreviation docs_url := "https://example.com/docs".
Local Abbreviation a_url := "https://example.com/docs/a".
Local Abbreviation ex_trace :=
  [Get LinksGet a_url; Get ContentGet a_url; Get LinksGet docs_url;
   Get ContentGet docs_url].
Local Abbreviation ex_docs := [mkDocument "Docs" docs_url; mkDocument "A" a_url].
Local Abbreviation ex_crawl := (crawl_and_scrape (example_web None) example_urljoin
                              false (fun _ _ => None)).
(** The command line [--urls https://example.com/docs], no PDF, no
    [--recursive], no [--translate_to]. *)
Local Abbreviation seed_args :=
  {| args_urls := [docs_url]; args_pdfs := []; args_recursive := false;
     args_translate_to := None |}.

Lemma crawl_and_scrape_scoped_and_unique_witness :
  ex_crawl 10 [docs_url] true None example_world = (mkWorld false ex_trace, Ok ex_docs) /\
  Forall (fun d => urlparse_netloc (doc_url d) = urlparse_netloc docs_url) ex_docs /\
  NoDup (map doc_url ex_docs).
Proof.
  split; [vm_compute; reflexivity|].
  apply (crawl_and_scrape_scoped_and_unique (example_web None) example_urljoin false
           (fun _ _ => None) 10 docs_url [] true None example_world
           (mkWorld false ex_trace) ex_docs).
  vm_compute; reflexivity.
Defined.

Lemma crawl_and_scrape_fetches_at_most_once_witness :
  ex_crawl 10 [docs_url] true None example_world = (mkWorld false ex_trace, Ok ex_docs) /\
  exists new,
    trace (mkWorld false ex_trace) = new ++ trace example_world /\
    NoDup (urls_at ContentGet new) /\ NoDup (urls_at LinksGet new) /\
    incl (urls_at LinksGet new) (urls_at ContentGet new).
Proof.
  split; [vm_compute; reflexivity|].
  apply (crawl_and_scrape_fetches_at_most_once (example_web None) example_urljoin false
           (fun _ _ => None) 10 [docs_url] true None example_world
           (mkWorld false ex_trace) (Ok ex_docs)).
  vm_compute; reflexivity.
Defined.

Lemma crawl_and_scrape_never_fetches_ignored_witness :
  ex_crawl 10 [docs_url] true None example_world = (mkWorld false ex_trace, Ok ex_docs) /\
  exists new,
    trace (mkWorld false ex_trace) = new ++ trace example_world /\
    forall u,
      (exists pattern, In pattern IGNORE_PATTERNS /\ contains pattern u = true) ->
      forall e, In e new -> ev_url e <> u.
Proof.
  split; [vm_compute; reflexivity|].
  apply (crawl_and_scrape_never_fetches_ignored (example_web None) example_urljoin false
           (fun _ _ => None) 10 [docs_url] true None example_world
           (mkWorld false ex_trace) (Ok ex_docs)).
  vm_compute; reflexivity.
Defined.

Lemma example_domain_closed :
  forall u h a,
    In u [docs_url; a_url; "https://other.com/x"] ->
    In h (page_hrefs (example_web None) u) -> example_urljoin u h = Some a ->
    In a [docs_url; a_url; "https://other.com/x"].
Proof.
  intros u h a Hu Hh Hj.
  destruct Hu as [<-|[<-|[<-|[]]]]; vm_compute in Hh;
    repeat (destruct Hh as [<-|Hh]; [vm_compute in Hj; injection Hj as <-; simpl; auto|]);
    contradiction.
Qed.

Lemma crawl_terminates_and_counts_witness :
  incl [docs_url] [docs_url; a_url; "https://other.com/x"] /\
  (forall u h a,
     In u [docs_url; a_url; "https://other.com/x"] ->
     In h (page_hrefs (example_web None) u) -> example_urljoin u h = Some a ->
     In a [docs_url; a_url; "https://other.com/x"]) /\
  urlparse_netloc docs_url = Some "example.com" /\
  ((exists fuel, snd (ex_crawl fuel [docs_url] true None example_world) <> OutOfFuel) /\
   (forall fuel w' docs L,
      ex_crawl fuel [docs_url] true None example_world = (w', Ok docs) ->
      NoDup L ->
      (forall x, In x L <->
         reachable (example_web None) example_urljoin true "example.com" [docs_url] x /\
         fetch_ok (example_web None) x = true) ->
      length docs = length L)).
Proof.
  split; [|split; [|split]].
  - intros x [<-|[]]; left; reflexivity.
  - exact example_domain_closed.
  - vm_compute; reflexivity.
  - apply (crawl_terminates_and_counts (example_web None) example_urljoin false
             (fun _ _ => None) [docs_url; a_url; "https://other.com/x"] docs_url []
             "example.com" true None example_world).
    + intros x [<-|[]]; left; reflexivity.
    + exact example_domain_closed.
    + vm_compute; reflexivity.
Defined.

(** C4, as stated, fails: the seed [/gone] is an in-scope reachable URL,
    but it answers 404, so the crawl returns no Document. *)
Lemma crawl_count_counterexample :
  ex_crawl 5 ["https://example.com/gone"] true None example_world =
    (mkWorld false [Get LinksGet "https://example.com/gone";
                    Get ContentGet "https://example.com/gone"], Ok []) /\
  NoDup ["https://example.com/gone"] /\
  (forall x, In x ["https://example.com/gone"] <->
     reachable (example_web None) example_urljoin true "example.com"
       ["https://example.com/gone"] x) /\
  length ([] : list Document) <> length ["https://example.com/gone"].
Proof.
  split_and.
  - vm_compute; reflexivity.
  - constructor; [intros []|constructor].
  - intros x; split.
    + intros [<-|[]]; apply reachable_seed; [left; reflexivity|].
      split; vm_compute; reflexivity.
    + induction 1 as [u Hu _ | u h a _ IH _ Hh _ _]; [exact Hu|].
      destruct IH as [<-|[]]; vm_compute in Hh; contradiction.
  - discriminate.
Qed.



Lemma translation_failure_keeps_text_witness :
  ((client_ready example_world = false /\ false = false) \/
   (fun _ _ : string => @None string) "Docs" "en" = None) /\
  example_web None docs_url =
    Some (mkResponse 200 (mkBody None "Docs" ["/docs/a"; "https://other.com/x"])) /\
  http_error_status (mkResponse 200 (mkBody None "Docs" ["/docs/a"; "https://other.com/x"]))
    = false /\
  "en" <> "" /\
  ((forall text lang' w0, exists t,
      snd (translate_text false (fun _ _ => None) text lang' w0) = Ok t) /\
   snd (translate_text false (fun _ _ => None) "Docs" "en" example_world) = Ok "Docs" /\
   snd (process_url (example_web None) false (fun _ _ => None) docs_url (Some "en")
          example_world) = Ok (Some (mkDocument "Docs" docs_url))).
Proof.
  split; [right; reflexivity|].
  split; [vm_compute; reflexivity|].
  split; [vm_compute; reflexivity|].
  split; [discriminate|].
  apply (translation_failure_keeps_text (example_web None) false (fun _ _ => None)
           docs_url "en"
           (mkResponse 200 (mkBody None "Docs" ["/docs/a"; "https://other.com/x"]))
           example_world).
  - right; reflexivity.
  - vm_compute; reflexivity.
  - vm_compute; reflexivity.
  - discriminate.
Defined.

Lemma fetch_failure_skips_url_witness :
  (fetch_ok (example_web None) "https://example.com/moved" = true /\
   exists d, snd (process_url (example_web None) false (fun _ _ => None)
                    "https://example.com/moved" None example_world) = Ok (Some d) /\
             doc_url d = "https://example.com/moved") /\
  fetch_ok (example_web None) "https://example.com/gone" = false /\
  mem "https://example.com/gone" [] = false /\
  ignored "https://example.com/gone" = false /\
  urlparse_netloc "https://example.com/gone" = Some "example.com" /\
  crawl_loop (example_web None) example_urljoin false (fun _ _ => None) 3 true None
    "example.com" (mkLoop [] [] ["https://example.com/gone"]) example_world =
  crawl_loop (example_web None) example_urljoin false (fun _ _ => None) 2 true None
    "example.com" (mkLoop ["https://example.com/gone"] [] [])
    (mkWorld false (visit_events true ["https://example.com/gone"] ++ [])).
Proof.
  split.
  { split; [vm_compute; reflexivity|].
    apply (proj1 (proj2 (proj2 (fetch_failure_skips_url (example_web None)
             example_urljoin false (fun _ _ => None) "https://example.com/moved" None
             example_world true "example.com" 2 [] [] [])))).
    vm_compute; reflexivity. }
  split; [vm_compute; reflexivity|].
  split; [vm_compute; reflexivity|].
  split; [vm_compute; reflexivity|].
  split; [vm_compute; reflexivity|].
  refine (proj2 (proj2 (proj2 (fetch_failure_skips_url (example_web None) example_urljoin
           false (fun _ _ => None) "https://example.com/gone" None example_world true
           "example.com" 2 [] [] []))) _ _ _ _); vm_compute; reflexivity.
Defined.

(** C8, as stated, fails: [/moved] answers 300, a non-2xx status, yet
    [raise_for_status] accepts it and [process_url] emits a Document. *)
Lemma process_url_redirect_counterexample :
  example_web None "https://example.com/moved" =
    Some (mkResponse 300 (mkBody None "Multiple Choices" [])) /\
  ~ (200 <= 300 < 300)%Z /\
  snd (process_url (example_web None) false (fun _ _ => None)
         "https://example.com/moved" None example_world) =
    Ok (Some (mkDocument "Multiple Choices" "https://example.com/moved")).
Proof.
  split; [vm_compute; reflexivity|].
  split; [lia|].
  vm_compute; reflexivity.
Qed.

Lemma sitemap_failure_falls_back_witness :
  example_urljoin docs_url "sitemap.xml" = Some "https://example.com/sitemap.xml" /\
  match example_web None "https://example.com/sitemap.xml" with
  | None => True
  | Some resp =>
      http_error_status resp = true \/ xml_locs (content resp) = None \/
      xml_locs (content resp) = Some []
  end /\
  (let w1 := mkWorld false [Get SitemapGet "https://example.com/sitemap.xml"] in
   fetch_sitemap_urls (example_web None) example_urljoin docs_url example_world = (w1, Ok []) /\
   (args_urls seed_args = [docs_url] -> args_pdfs seed_args = [] ->
    load_documents_from_sources (example_web None) example_urljoin false
      (fun _ _ => None) (fun _ => Some []) 10 seed_args example_world =
    ex_crawl 10 [docs_url] false None w1) /\
   (args_urls seed_args = [docs_url] -> args_recursive seed_args = false ->
    forall w' r, load_documents_from_sources (example_web None) example_urljoin false
      (fun _ _ => None) (fun _ => Some []) 10 seed_args example_world = (w', r) ->
    exists new, trace w' = new ++ trace w1 /\
      forall e, In e new -> ev_site e = ContentGet /\ In (ev_url e) [docs_url]) /\
   load_api_reference_documents (example_web None) example_urljoin false
     (fun _ _ => None) 10 docs_url example_world =
   try_except (fun _ => true) (ex_crawl 10 [docs_url] true None)
     (fun _ => ret []) w1).
Proof.
  split; [vm_compute; reflexivity|].
  split; [vm_compute; left; reflexivity|].
  apply (sitemap_failure_falls_back (example_web None) example_urljoin false
           (fun _ _ => None) (fun _ => Some []) docs_url "https://example.com/sitemap.xml"
           example_world 10 seed_args []).
  - vm_compute; reflexivity.
  - vm_compute; left; reflexivity.
Defined.

(** C9, as stated, fails: the sitemap answers 404 and [fetch_sitemap_urls]
    returns [[]], but with [--recursive] off the fallback crawl of the seed
    [/docs] harvests no links (no link request at all), so its in-scope,
    fetchable link [/docs/a] is never fetched. *)
Lemma sitemap_fallback_counterexample :
  let run := load_documents_from_sources (example_web None) example_urljoin false
               (fun _ _ => None) (fun _ => Some []) 10 seed_args example_world in
  args_urls seed_args = [docs_url] /\ args_recursive seed_args = false /\
  snd (fetch_sitemap_urls (example_web None) example_urljoin docs_url example_world) = Ok [] /\
  In "/docs/a" (page_hrefs (example_web None) docs_url) /\
  example_urljoin docs_url "/docs/a" = Some a_url /\
  urlparse_netloc a_url = urlparse_netloc docs_url /\
  fetch_ok (example_web None) a_url = true /\
  snd run = Ok [mkDocument "Docs" docs_url] /\
  urls_at LinksGet (trace (fst run)) = [] /\
  urls_at ContentGet (trace (fst run)) = [docs_url] /\
  ~ In a_url (urls_at ContentGet (trace (fst run))).
Proof.
  intros run; split_and; try (vm_compute; reflexivity).
  - vm_compute; left; reflexivity.
  - vm_compute; intros [H|[]]; discriminate.
Qed.

(** C1 (code bug): when the sitemap lists URLs, [load_documents_from_sources]
    still passes [args.recursive] to [crawl_and_scrape], so with
    [--recursive] the crawl harvests the links of the sitemap page [/docs]
    and fetches and documents [/docs/a], which the sitemap does not list. *)
Theorem sitemap_urls_still_followed :
  snd (fetch_sitemap_urls (example_web (Some [docs_url])) example_urljoin
         "https://example.com/" example_world) = Ok [docs_url] /\
  load_documents_from_sources (example_web (Some [docs_url])) example_urljoin false
    (fun _ _ => None) (fun _ => Some []) 10 (mkArgs ["https://example.com/"] [] true None)
    example_world =
    (mkWorld false (ex_trace ++ [Get SitemapGet "https://example.com/sitemap.xml"]),
     Ok ex_docs) /\
  mem a_url [docs_url] = false.
Proof.
  split; [vm_compute; reflexivity|].
  split; vm_compute; reflexivity.
Qed.

(* ------------------------------------------------------------------ *)
(** ** Further runs on the example site and on a small Chroma database *)

Local Abbreviation sitemap_xml := "https://example.com/sitemap.xml".

Lemma process_url_without_translation_witness :
  truthy (Some "") = false /\
  process_url (example_web None) false (fun _ _ => None) docs_url (Some "") example_world =
    (mkWorld false [Get ContentGet docs_url], Ok (Some (mkDocument "Docs" docs_url))).
Proof.
  split; [reflexivity|].
  rewrite (process_url_without_translation (example_web None) false (fun _ _ => None)
             docs_url (Some "") example_world eq_refl).
  vm_compute; reflexivity.
Defined.

Lemma crawl_and_scrape_nonrecursive_bounded_witness :
  length [docs_url; a_url] <= 2 /\
  ex_crawl 2 [docs_url; a_url] false None example_world =
    (mkWorld false [Get ContentGet a_url; Get ContentGet docs_url], Ok ex_docs) /\
  (Ok ex_docs <> OutOfFuel /\
   exists new, trace (mkWorld false [Get ContentGet a_url; Get ContentGet docs_url]) =
                 new ++ trace example_world /\
     forall e, In e new -> ev_site e = ContentGet /\ In (ev_url e) [docs_url; a_url]).
Proof.
  split; [simpl; lia|].
  split; [vm_compute; reflexivity|].
  apply (crawl_and_scrape_nonrecursive_bounded (example_web None) example_urljoin false
           (fun _ _ => None) 2 [docs_url; a_url] None example_world
           (mkWorld false [Get ContentGet a_url; Get ContentGet docs_url]) (Ok ex_docs)).
  - simpl; lia.
  - vm_compute; reflexivity.
Defined.

Lemma example_seeds_in_scope :
  forall u, In u [docs_url; a_url] ->
    ignored u = false /\ urlparse_netloc u = urlparse_netloc docs_url.
Proof.
  intros u [<-|[<-|[]]]; split; vm_compute; reflexivity.
Qed.

Lemma example_seeds_nodup : NoDup [docs_url; a_url].
Proof.
  constructor; [intros [H|[]]; discriminate H|].
  constructor; [intros []|constructor].
Qed.

Lemma crawl_and_scrape_nonrecursive_documents_witness :
  NoDup [docs_url; a_url] /\
  (forall u, In u [docs_url; a_url] ->
     ignored u = false /\ urlparse_netloc u = urlparse_netloc docs_url) /\
  ex_crawl 10 [docs_url; a_url] false None example_world =
    (mkWorld false [Get ContentGet a_url; Get ContentGet docs_url], Ok ex_docs) /\
  map doc_url ex_docs = filter (fetch_ok (example_web None)) [docs_url; a_url].
Proof.
  split; [exact example_seeds_nodup|].
  split; [exact example_seeds_in_scope|].
  split; [vm_compute; reflexivity|].
  apply (crawl_and_scrape_nonrecursive_documents (example_web None) example_urljoin false
           (fun _ _ => None) 10 docs_url [a_url] None example_world
           (mkWorld false [Get ContentGet a_url; Get ContentGet docs_url]) ex_docs
           example_seeds_nodup example_seeds_in_scope).
  vm_compute; reflexivity.
Defined.

Lemma crawl_and_scrape_documents_not_ignored_witness :
  ex_crawl 10 [docs_url] true None example_world = (mkWorld false ex_trace, Ok ex_docs) /\
  forall d, In d ex_docs -> forall pattern, In pattern IGNORE_PATTERNS ->
    contains pattern (doc_url d) = false.
Proof.
  split; [vm_compute; reflexivity|].
  apply (crawl_and_scrape_documents_not_ignored (example_web None) example_urljoin false
           (fun _ _ => None) 10 [docs_url] true None example_world
           (mkWorld false ex_trace) ex_docs).
  vm_compute; reflexivity.
Defined.

Lemma load_documents_without_urls_witness :
  args_urls (mkArgs [] ["manual.pdf"] false None) = [] /\
  load_documents_from_sources (example_web None) example_urljoin false (fun _ _ => None)
    example_pdf_reader 10 (mkArgs [] ["manual.pdf"] false None) example_world =
  (example_world, Ok [mkDocument "Manual" "manual.pdf"]) /\
  args_urls (mkArgs [] ["missing.pdf"; "manual.pdf"] false None) = [] /\
  load_documents_from_sources (example_web None) example_urljoin false (fun _ _ => None)
    example_pdf_reader 10 (mkArgs [] ["missing.pdf"; "manual.pdf"] false None)
    example_world =
  (example_world, Err LoaderError).
Proof.
  split; [reflexivity|].
  split.
  { rewrite (load_documents_without_urls (example_web None) example_urljoin false
               (fun _ _ => None) example_pdf_reader 10
               (mkArgs [] ["manual.pdf"] false None) example_world eq_refl).
    reflexivity. }
  split; [reflexivity|].
  rewrite (load_documents_without_urls (example_web None) example_urljoin false
             (fun _ _ => None) example_pdf_reader 10
             (mkArgs [] ["missing.pdf"; "manual.pdf"] false None) example_world eq_refl).
  reflexivity.
Defined.

Lemma load_documents_sitemap_nonrecursive_witness :
  args_urls (mkArgs ["https://example.com/"; "https://example.com/gone"] [] false None) =
    ["https://example.com/"; "https://example.com/gone"] /\
  args_recursive (mkArgs ["https://example.com/"; "https://example.com/gone"] [] false None)
    = false /\
  fetch_sitemap_urls (example_web (Some [docs_url])) example_urljoin
    "https://example.com/" example_world =
    (mkWorld false [Get SitemapGet sitemap_xml], Ok [docs_url]) /\
  [docs_url] <> [] /\
  load_documents_from_sources (example_web (Some [docs_url])) example_urljoin false
    (fun _ _ => None) (fun _ => Some []) 10
    (mkArgs ["https://example.com/"; "https://example.com/gone"] [] false None)
    example_world =
    (mkWorld false [Get ContentGet docs_url; Get SitemapGet sitemap_xml],
     Ok [mkDocument "Docs" docs_url]) /\
  exists new,
    trace (mkWorld false [Get ContentGet docs_url; Get SitemapGet sitemap_xml]) =
      new ++ trace (mkWorld false [Get SitemapGet sitemap_xml]) /\
    forall e, In e new -> ev_site e = ContentGet /\ In (ev_url e) [docs_url].
Proof.
  split; [reflexivity|].
  split; [reflexivity|].
  split; [vm_compute; reflexivity|].
  split; [discriminate|].
  split; [vm_compute; reflexivity|].
  apply (load_documents_sitemap_nonrecursive (example_web (Some [docs_url])) example_urljoin
           false (fun _ _ => None) (fun _ => Some []) 10
           (mkArgs ["https://example.com/"; "https://example.com/gone"] [] false None)
           "https://example.com/" ["https://example.com/gone"] example_world
           (mkWorld false [Get SitemapGet sitemap_xml])
           (mkWorld false [Get ContentGet docs_url; Get SitemapGet sitemap_xml])
           [docs_url] (Ok [mkDocument "Docs" docs_url])).
  - reflexivity.
  - reflexivity.
  - vm_compute; reflexivity.
  - discriminate.
  - vm_compute; reflexivity.
Defined.

Lemma api_reference_sitemap_authoritative_witness :
  fetch_sitemap_urls (example_web (Some [docs_url])) example_urljoin
    "https://example.com/" example_world =
    (mkWorld false [Get SitemapGet sitemap_xml], Ok [docs_url]) /\
  [docs_url] <> [] /\
  load_api_reference_documents (example_web (Some [docs_url])) example_urljoin false
    (fun _ _ => None) 10 "https://example.com/" example_world =
    (mkWorld false [Get ContentGet docs_url; Get SitemapGet sitemap_xml],
     Ok [mkDocument "Docs" docs_url]) /\
  exists new,
    trace (mkWorld false [Get ContentGet docs_url; Get SitemapGet sitemap_xml]) =
      new ++ trace (mkWorld false [Get SitemapGet sitemap_xml]) /\
    forall e, In e new -> ev_site e = ContentGet /\ In (ev_url e) [docs_url].
Proof.
  split; [vm_compute; reflexivity|].
  split; [discriminate|].
  split; [vm_compute; reflexivity|].
  apply (api_reference_sitemap_authoritative (example_web (Some [docs_url]))
           example_urljoin false (fun _ _ => None) 10 "https://example.com/" example_world
           (mkWorld false [Get SitemapGet sitemap_xml])
           (mkWorld false [Get ContentGet docs_url; Get SitemapGet sitemap_xml])
           [docs_url] (Ok [mkDocument "Docs" docs_url])).
  - vm_compute; reflexivity.
  - discriminate.
  - vm_compute; reflexivity.
Defined.

Lemma load_api_reference_never_raises_witness :
  fetch_sitemap_urls (example_web None) example_urljoin "http://[abc]/" example_world =
    (example_world, Err ValueError) /\
  load_api_reference_documents (example_web None) example_urljoin false
    (fun _ _ => None) 10 "http://[abc]/" example_world = (example_world, Ok []) /\
  (let w1 := mkWorld false [Get SitemapGet sitemap_xml] in
   fetch_sitemap_urls (example_web (Some ["http://[abc]/"])) example_urljoin docs_url
     example_world = (w1, Ok ["http://[abc]/"]) /\
   crawl_and_scrape (example_web (Some ["http://[abc]/"])) example_urljoin false
     (fun _ _ => None) 10 ["http://[abc]/"] false None w1 = (w1, Err ValueError) /\
   load_api_reference_documents (example_web (Some ["http://[abc]/"])) example_urljoin
     false (fun _ _ => None) 10 docs_url example_world = (w1, Ok [])).
Proof.
  split; [vm_compute; reflexivity|].
  split.
  { apply (proj1 (proj2 (load_api_reference_never_raises (example_web None)
             example_urljoin false (fun _ _ => None) 10 "http://[abc]/" example_world))
             example_world ValueError).
    vm_compute; reflexivity. }
  intros w1.
  split; [vm_compute; reflexivity|].
  split; [vm_compute; reflexivity|].
  apply (proj2 (proj2 (proj2 (load_api_reference_never_raises
           (example_web (Some ["http://[abc]/"])) example_urljoin false (fun _ _ => None)
           10 docs_url example_world))) w1 w1 ValueError "http://[abc]/" []);
    vm_compute; reflexivity.
Defined.

Lemma build_core_index_replaces_witness :
  NoDup (collection_names [("core_knowledge", ["old"]); ("alma_docs", ["x"])]) /\
  build_core_index true true example_valid_name true string example_index_partial ex_docs
    [("core_knowledge", ["old"]); ("alma_docs", ["x"])] =
    ([("alma_docs", ["x"]); ("core_knowledge", ["Docs"])], Raised) /\
  (Raised = (if true && snd (example_index_partial ex_docs) then Returned else Raised) /\
   lookup_collection "core_knowledge"
     [("alma_docs", ["x"]); ("core_knowledge", ["Docs"])] =
     Some (if true then fst (example_index_partial ex_docs) else []) /\
   forall n, n <> "core_knowledge" ->
     lookup_collection n [("alma_docs", ["x"]); ("core_knowledge", ["Docs"])] =
     lookup_collection n [("core_knowledge", ["old"]); ("alma_docs", ["x"])]).
Proof.
  assert (Hnd : NoDup (collection_names [("core_knowledge", ["old"]); ("alma_docs", ["x"])])).
  { constructor; [intros [H|[]]; discriminate H|constructor; [intros []|constructor]]. }
  split; [exact Hnd|].
  split; [vm_compute; reflexivity|].
  apply (build_core_index_replaces true true example_valid_name true string
           example_index_partial ex_docs
           [("core_knowledge", ["old"]); ("alma_docs", ["x"])]
           [("alma_docs", ["x"]); ("core_knowledge", ["Docs"])] Raised Hnd).
  - discriminate.
  - reflexivity.
  - reflexivity.
  - vm_compute; reflexivity.
  - vm_compute; reflexivity.
Defined.

Lemma build_and_save_index_appends_witness :
  build_and_save_index true example_valid_name true string example_index_ok (fun s => s)
    "alma" ex_docs false [("alma_docs", ["old"])] =
    ([("alma_docs", ["old"; "Docs"; "A"])], Returned) /\
  (Returned = (if true && snd (example_index_ok ex_docs) then Returned else Raised) /\
   lookup_collection ("alma" ++ "_docs") [("alma_docs", ["old"; "Docs"; "A"])] =
     Some ((match lookup_collection ("alma" ++ "_docs") [("alma_docs", ["old"])] with
            | Some c => c | None => [] end) ++
           (if true then fst (example_index_ok ex_docs) else []))%list /\
   forall n, n <> ("alma" ++ "_docs")%string ->
     lookup_collection n [("alma_docs", ["old"; "Docs"; "A"])] =
     lookup_collection n [("alma_docs", ["old"])]) /\
  build_and_save_index true example_valid_name true string example_index_ok (fun s => s)
    "my kb" ex_docs false [("alma_docs", ["old"])] = ([("alma_docs", ["old"])], Raised) /\
  ([("alma_docs", ["old"])] = [("alma_docs", ["old"])] /\ Raised = Raised).
Proof.
  split; [vm_compute; reflexivity|].
  split.
  { apply (proj2 (build_and_save_index_appends true example_valid_name true string
             example_index_ok (fun s => s) "alma" ex_docs [("alma_docs", ["old"])]
             [("alma_docs", ["old"; "Docs"; "A"])] Returned eq_refl
             ltac:(vm_compute; reflexivity))).
    vm_compute; reflexivity. }
  split; [vm_compute; reflexivity|].
  apply (proj1 (build_and_save_index_appends true example_valid_name true string
           example_index_ok (fun s => s) "my kb" ex_docs [("alma_docs", ["old"])]
           [("alma_docs", ["old"])] Raised eq_refl ltac:(vm_compute; reflexivity))).
  vm_compute; reflexivity.
Defined.

Lemma build_and_save_index_overwrite_witness :
  NoDup (collection_names [("alma_docs", ["old"]); ("beta_docs", ["y"])]) /\
  build_and_save_index true example_valid_name true string example_index_ok (fun s => s)
    "alma" ex_docs true [("alma_docs", ["old"]); ("beta_docs", ["y"])] =
    ([("beta_docs", ["y"]); ("alma_docs", ["Docs"; "A"])], Returned) /\
  (Returned = (if true && snd (example_index_ok ex_docs) then Returned else Raised) /\
   lookup_collection ("alma" ++ "_docs") [("beta_docs", ["y"]); ("alma_docs", ["Docs"; "A"])] =
     Some (if true then fst (example_index_ok ex_docs) else []) /\
   forall n, n <> ("alma" ++ "_docs")%string ->
     lookup_collection n [("beta_docs", ["y"]); ("alma_docs", ["Docs"; "A"])] =
     lookup_collection n [("alma_docs", ["old"]); ("beta_docs", ["y"])]) /\
  build_and_save_index true example_valid_name true string example_index_ok (fun s => s)
    "gamma" ex_docs true [("alma_docs", ["old"]); ("beta_docs", ["y"])] =
    ([("alma_docs", ["old"]); ("beta_docs", ["y"])], Raised) /\
  ([("alma_docs", ["old"]); ("beta_docs", ["y"])] =
     [("alma_docs", ["old"]); ("beta_docs", ["y"])] /\ Raised = Raised).
Proof.
  assert (Hnd : NoDup (collection_names [("alma_docs", ["old"]); ("beta_docs", ["y"])])).
  { constructor; [intros [H|[]]; discriminate H|constructor; [intros []|constructor]]. }
  split; [exact Hnd|].
  split; [vm_compute; reflexivity|].
  split.
  { apply (proj2 (build_and_save_index_overwrite true example_valid_name true string
             example_index_ok (fun s => s) "alma" ex_docs
             [("alma_docs", ["old"]); ("beta_docs", ["y"])]
             [("beta_docs", ["y"]); ("alma_docs", ["Docs"; "A"])] Returned Hnd eq_refl
             ltac:(vm_compute; reflexivity))).
    - discriminate.
    - vm_compute; reflexivity. }
  split; [vm_compute; reflexivity|].
  apply (proj1 (build_and_save_index_overwrite true example_valid_name true string
           example_index_ok (fun s => s) "gamma" ex_docs
           [("alma_docs", ["old"]); ("beta_docs", ["y"])]
           [("alma_docs", ["old"]); ("beta_docs", ["y"])] Raised Hnd eq_refl
           ltac:(vm_compute; reflexivity))).
  vm_compute; reflexivity.
Defined.
